(** * AtlasV0.2: the knowledge retrieval pipeline

    A shallow embedding of
      - [src/lib/service/openai.ts]   (embedMessage, embedDocument, embedChunk,
                                       transformObjectValues),
      - [src/lib/service/qdrant.ts]   (upsertDocument, query, deleteFromVectorDb),
      - [src/app/api/knowledgebase/route.ts] (sendUpdate, retrieveContext),
      - [toAscii] of the utilities module,
    followed by the properties of the retrieval pipeline proved about them.

    JavaScript strings are sequences of UTF-16 code units, numbers are IEEE
    doubles, objects are lists of entries in enumeration order.  Asynchronous
    code is run to completion: an [await] is a bind of the monad [M], a
    rejected promise is a thrown [JsError]. *)

From Stdlib Require Import PrimFloat DecimalFacts DecimalNat DecimalString.
From stdpp Require Import base numbers strings option list.

Set Default Proof Using "Type".
Set Warnings "-register-all".
Open Scope list_scope.

(** ** JavaScript values *)

(** A string is the list of its UTF-16 code units. *)
Abbreviation JsString := (list N).

(** The code units of an ASCII literal of the source. *)
Fixpoint lit (s : string) : JsString :=
  match s with
  | EmptyString => []
  | String a s' => Ascii.N_of_ascii a :: lit s'
  end.

(** [`${n}`] for an array index or a count: its decimal digits. *)
Definition dec (n : nat) : JsString := lit (NilZero.string_of_uint (Nat.to_uint n)).
Definition decN (n : N) : JsString := lit (NilZero.string_of_uint (N.to_uint n)).

Inductive JsValue : Type :=
| JUndefined
| JNull
| JBool (b : bool)
| JNum (x : float)
| JStr (s : JsString)
| JArr (items : list JsValue)
| JObj (entries : list (JsString * JsValue)).

Abbreviation JsObject := (list (JsString * JsValue)).

(** [typeof value === 'object' && value !== null] *)
Definition is_object (v : JsValue) : bool :=
  match v with
  | JArr _ | JObj _ => true
  | _ => false
  end.

(** ToBoolean *)
Definition truthy (v : JsValue) : bool :=
  match v with
  | JUndefined | JNull => false
  | JBool b => b
  | JNum x => negb (PrimFloat.eqb x 0%float) && PrimFloat.eqb x x
  | JStr s => negb (bool_decide (s = []))
  | JArr _ | JObj _ => true
  end.

(** An optional string property: [None] is [undefined]. *)
Definition truthy_str (o : option JsString) : bool :=
  match o with
  | Some (_ :: _) => true
  | _ => false
  end.

(** [`${s}`] for an optional string property. *)
Definition tpl (o : option JsString) : JsString :=
  match o with
  | Some s => s
  | None => lit "undefined"
  end.

Fixpoint index_entries (i : nat) (items : list JsValue) : JsObject :=
  match items with
  | [] => []
  | v :: rest => (dec i, v) :: index_entries (S i) rest
  end.

(** [Object.entries(value)] for a value that passed [is_object]. *)
Definition Object_entries (v : JsValue) : JsObject :=
  match v with
  | JObj entries => entries
  | JArr items => index_entries 0 items
  | _ => []
  end.

(** [obj[key]] *)
Fixpoint obj_get (o : JsObject) (key : JsString) : option JsValue :=
  match o with
  | [] => None
  | (k, v) :: rest => if bool_decide (k = key) then Some v else obj_get rest key
  end.

(** [obj[key] = value]: an own property keeps its place, a new one goes last. *)
Fixpoint obj_set (o : JsObject) (key : JsString) (value : JsValue) : JsObject :=
  match o with
  | [] => [(key, value)]
  | (k, v) :: rest =>
      if bool_decide (k = key) then (k, value) :: rest
      else (k, v) :: obj_set rest key value
  end.

Definition keys (o : JsObject) : list JsString := o.*1.

(** A thrown value: an [Error] object, with the two properties the code
    reads. *)
Record JsError := mkJsError { err_name : JsString; err_message : JsString }.

(** [new Error(message)] *)
Definition new_Error (message : JsString) : JsError :=
  {| err_name := lit "Error"; err_message := message |}.

Definition TypeError (message : JsString) : JsError :=
  {| err_name := lit "TypeError"; err_message := message |}.

(** What the provider call rejects with when its signal is aborted, as
    [embedChunk] tests for it: an error named [AbortError]. *)
Definition AbortError : JsError :=
  {| err_name := lit "AbortError"; err_message := lit "Request was aborted." |}.

(** ** [toAscii]:  [str.replace(/[^\x00-\x7F]/g, '')] *)

Definition toAscii (str : JsString) : JsString :=
  List.filter (fun c => (c <=? 127)%N) str.

(** ** Effects, the world and the monad *)

Inductive Level := Info | Warn | Error.

(** [new Bottleneck({...})] *)
Record BottleneckOptions := {
  reservoir : N;
  reservoirRefreshAmount : N;
  reservoirRefreshInterval : N;
  minTime : N;
  maxConcurrent : N
}.

(** One [openai.embeddings.create] request.  [signal] is the abort controller
    whose signal was passed as request option; [via_limiter] is the limiter
    whose [schedule] is running the caller, if any. *)
Record CreateRequest := {
  req_model : JsString;
  req_input : JsString;
  req_signal : option nat;
  via_limiter : option nat
}.

(** One condition of a Qdrant filter: [{ key, match: { value } }]. *)
Record Condition := { cond_key : JsString; cond_value : option JsString }.

(** One point of an upsert request: [{ id, payload, vector }]. *)
Record Point := {
  point_id : JsString;
  payload : JsObject;
  vector : list float
}.

Inductive Effect :=
| ELog (level : Level) (text : JsString)
| ECreate (request : CreateRequest)
| ENewLimiter (limiter : nat) (options : BottleneckOptions)
| ENewAbortController (controller : nat)
| ESetTimeout (timer : nat) (ms : N) (controller : nat)
| EClearTimeout (timer : nat)
| EAbort (controller : nat)
| EProgressStart (total : nat)
| EProgressIncrement
| EProgressStop
| EQdrantUpsert (collection : JsString) (points : list Point)
| EQdrantDelete (collection : JsString) (must : list Condition).

(** A pending [setTimeout(() => controller.abort(), ms)]. *)
Record Timer := { timer_id : nat; fires_at : N; aborts : nat }.

Record World := {
  trace : list Effect;          (* what happened, oldest first *)
  clock : N;                    (* Date.now(), in ms *)
  timers : list Timer;          (* pending timeouts *)
  create_calls : nat;           (* provider requests made so far *)
  uuid_draws : nat;             (* uuidv4() calls made so far *)
  handles : nat;                (* objects allocated so far *)
  running_in : option nat       (* the limiter running the current job *)
}.

Definition emit (e : Effect) (w : World) : World :=
  {| trace := trace w ++ [e]; clock := clock w; timers := timers w;
     create_calls := create_calls w; uuid_draws := uuid_draws w;
     handles := handles w; running_in := running_in w |}.

Definition set_clock (t : N) (w : World) : World :=
  {| trace := trace w; clock := t; timers := timers w;
     create_calls := create_calls w; uuid_draws := uuid_draws w;
     handles := handles w; running_in := running_in w |}.

Definition set_timers (ts : list Timer) (w : World) : World :=
  {| trace := trace w; clock := clock w; timers := ts;
     create_calls := create_calls w; uuid_draws := uuid_draws w;
     handles := handles w; running_in := running_in w |}.

Definition count_create (w : World) : World :=
  {| trace := trace w; clock := clock w; timers := timers w;
     create_calls := S (create_calls w); uuid_draws := uuid_draws w;
     handles := handles w; running_in := running_in w |}.

Definition count_uuid (w : World) : World :=
  {| trace := trace w; clock := clock w; timers := timers w;
     create_calls := create_calls w; uuid_draws := S (uuid_draws w);
     handles := handles w; running_in := running_in w |}.

Definition count_handle (w : World) : World :=
  {| trace := trace w; clock := clock w; timers := timers w;
     create_calls := create_calls w; uuid_draws := uuid_draws w;
     handles := S (handles w); running_in := running_in w |}.

Definition set_running_in (l : option nat) (w : World) : World :=
  {| trace := trace w; clock := clock w; timers := timers w;
     create_calls := create_calls w; uuid_draws := uuid_draws w;
     handles := handles w; running_in := l |}.

Definition boot : World :=
  {| trace := []; clock := 0; timers := []; create_calls := 0;
     uuid_draws := 0; handles := 0; running_in := None |}.

(** A computation over a state [S] that returns an [A] or throws. *)
Definition M (S A : Type) : Type := S -> S * (JsError + A).

Definition ret {S A} (a : A) : M S A := fun s => (s, inr a).

Definition throw {S A} (e : JsError) : M S A := fun s => (s, inl e).

Definition bind {S A B} (m : M S A) (k : A -> M S B) : M S B :=
  fun s =>
    match m s with
    | (s', inr a) => k a s'
    | (s', inl e) => (s', inl e)
    end.

Notation "x <- m ;; k" := (bind m (fun x => k))
  (at level 100, m at level 99, k at level 200, right associativity, only parsing).
Notation "m ;; k" := (bind m (fun _ => k))
  (at level 100, k at level 200, right associativity, only parsing).

(** [try { body } catch (error) { handler }] *)
Definition try_catch {S A} (body : M S A) (handler : JsError -> M S A) : M S A :=
  fun s =>
    match body s with
    | (s', inl e) => handler e s'
    | done => done
    end.

(** [try { body } finally { cleanup }]: the cleanup always runs; the outcome
    is the body's unless the cleanup itself throws. *)
Definition try_finally {S A} (body : M S A) (cleanup : M S unit) : M S A :=
  fun s =>
    let '(s1, r) := body s in
    match cleanup s1 with
    | (s2, inr _) => (s2, r)
    | (s2, inl e) => (s2, inl e)
    end.

Definition modify {S} (f : S -> S) : M S unit := fun s => (f s, inr tt).

(** The value a computation returns, and the state it leaves. *)
Definition outcome {S A} (r : S * (JsError + A)) : JsError + A := r.2.
Definition after {S A} (r : S * (JsError + A)) : S := r.1.

(** [Promise.allSettled(jobs)]: every job runs, none aborts the others; the
    results come back in the order of the jobs. *)
Fixpoint allSettled {S A} (jobs : list (M S A)) : M S (list (JsError + A)) :=
  match jobs with
  | [] => ret []
  | job :: rest =>
      fun s =>
        let '(s1, r) := job s in
        match allSettled rest s1 with
        | (s2, inr rs) => (s2, inr (r :: rs))
        | (s2, inl e) => (s2, inl e)
        end
  end.

(** ** The data the services exchange *)

(** The embedding of the types module; [route.ts] casts the result of
    [embedMessage], which has no [metadata] property, to this type. *)
Record Embedding := {
  emb_id : JsString;
  emb_values : list float;
  emb_metadata : option JsObject
}.

(** A parsed chunk, [{ text, metadata }]: the properties [embedChunk] reads. *)
Record ParsedElement := { chunk_text : JsString; chunk_metadata : JsObject }.

(** Modelled from the spec: the declaration of [KnowledgebaseFile] is not
    among the sources.  The file collaborator supplies [{ name, key, url }];
    name and url are optional, as the guard of [deleteFromVectorDb] tests. *)
Record KnowledgebaseFile := {
  file_name : option JsString;
  file_key : JsString;
  file_url : option JsString
}.

Record QueryResult := { context : list JsValue }.

Record Provider := {
  provider_query : JsString -> Embedding -> N -> M World QueryResult
}.

(** [settings]: the properties [retrieveContext] reads. *)
Record Settings := {
  vectorizationProvider : JsString;     (* settings.forge.vectorizationProvider *)
  vectorDbTopK : N;                     (* settings.knowledgebase.vectorDbTopK *)
  knowledgebase : JsValue               (* settings.knowledgebase *)
}.

(** The provider's answer to one request: when it arrives and what it is
    ([response.data[0].embedding], or the error the request rejects with). *)
Record Reply := { latency : N; response : JsError + list float }.

(** Everything outside the source files: the process environment, the
    JavaScript runtime, the network services and the imported modules. *)
Record Env := {
  OPENAI_API_EMBEDDING_MODEL : option JsString;
  QDRANT_COLLECTION : option JsString;
  (* the embedding provider's answer to the n-th request, for a model and an
     input text *)
  embeddings_reply : nat -> JsString -> JsString -> Reply;
  (* the n-th identifier uuidv4() hands out *)
  uuidv4 : nat -> JsString;
  (* new Date(t).toLocaleString() *)
  toLocaleString : N -> JsString;
  (* `${v}` *)
  String_of : JsValue -> JsString;
  (* `${JSON.stringify(v)}` *)
  JSON_stringify : JsValue -> JsString;
  (* an exception thrown synchronously while the jobs of a batch are created,
     before any is dispatched; [None] in a run where there is none *)
  setup_fault : option JsError;
  (* Qdrant's answers to an upsert and to a delete request *)
  client_upsert : JsString -> list Point -> JsError + unit;
  client_delete : JsString -> list Condition -> JsError + unit;
  (* '@/lib/service/vector-db/factory' *)
  getVectorDbProvider : JsString -> M World Provider;
  (* '@/lib/service/cohere' *)
  rerank : JsString -> list JsValue -> JsValue -> M World JsString
}.

(** [a || b] on an environment variable. *)
Definition or_default (o : option JsString) (default : JsString) : JsString :=
  match o with
  | Some (c :: s) => c :: s
  | _ => default
  end.

Definition embeddingApiModel (env : Env) : JsString :=
  or_default (OPENAI_API_EMBEDDING_MODEL env) (lit "text-embedding-3-large").

Definition qdrant_collection (env : Env) : JsString :=
  or_default (QDRANT_COLLECTION env) (lit "atlasv1").

(** ** The runtime *)

(** The colour functions of chalk wrap the text in terminal escapes; the
    model keeps the text. *)
Definition chalk (text : JsString) : JsString := text.

Definition logger_info (text : JsString) : M World unit := modify (emit (ELog Info text)).
Definition logger_error (text : JsString) : M World unit := modify (emit (ELog Error text)).

Definition Date_now : M World N := fun w => (w, inr (clock w)).

Definition draw_uuid (env : Env) : M World JsString :=
  fun w => (count_uuid w, inr (uuidv4 env (uuid_draws w))).

Definition new_AbortController : M World nat :=
  fun w => (count_handle (emit (ENewAbortController (handles w)) w), inr (handles w)).

(** [setTimeout(() => controller.abort(), ms)] *)
Definition setTimeout_abort (ms : N) (controller : nat) : M World nat :=
  fun w =>
    let t := {| timer_id := handles w; fires_at := clock w + ms; aborts := controller |} in
    (count_handle (set_timers (timers w ++ [t])
                     (emit (ESetTimeout (handles w) ms controller) w)),
     inr (handles w)).

Definition clearTimeout (timer : nat) : M World unit :=
  fun w =>
    (set_timers (List.filter (fun t => negb (timer_id t =? timer)) (timers w))
       (emit (EClearTimeout timer) w),
     inr tt).

(** The pending timer, if any, that aborts [signal] no later than [arrival]. *)
Definition aborted_by (signal : option nat) (arrival : N) (ts : list Timer) : option Timer :=
  match signal with
  | None => None
  | Some c => List.find (fun t => (aborts t =? c) && (fires_at t <=? arrival)%N) ts
  end.

(** [await openai.embeddings.create({ model, input, encoding_format: 'float' },
    { signal })]: the answer arrives after its latency, unless a timer aborts
    the signal first; then the request is cancelled and rejects. *)
Definition embeddings_create (env : Env) (model input : JsString)
    (signal : option nat) : M World (list float) :=
  fun w =>
    let request := {| req_model := model; req_input := input;
                      req_signal := signal; via_limiter := running_in w |} in
    let reply := embeddings_reply env (create_calls w) model input in
    let w1 := count_create (emit (ECreate request) w) in
    let arrival := (clock w + latency reply)%N in
    match aborted_by signal arrival (timers w1) with
    | Some t =>
        (emit (EAbort (aborts t))
           (set_timers (List.filter (fun t' => negb (timer_id t' =? timer_id t)) (timers w1))
              (set_clock (fires_at t) w1)),
         inl AbortError)
    | None => (set_clock arrival w1, response reply)
    end.

Definition limiter_options : BottleneckOptions :=
  {| reservoir := 5000;
     reservoirRefreshAmount := 5000;
     reservoirRefreshInterval := 60 * 1000;
     minTime := 12;
     maxConcurrent := 50 |}.

Definition new_Bottleneck (options : BottleneckOptions) : M World nat :=
  fun w => (count_handle (emit (ENewLimiter (handles w) options) w), inr (handles w)).

(** [limiter.schedule(job)]: the job runs under the limiter. *)
Definition limiter_schedule {A} (limiter : nat) (job : M World A) : M World A :=
  fun w =>
    let '(w', r) := job (set_running_in (Some limiter) w) in
    (set_running_in (running_in w) w', r).

(** ** [src/lib/service/openai.ts] *)

Section Services.

Variable env : Env.

(** The array an object value is replaced by: one [`${k}:${JSON.stringify(v)}`]
    per entry. *)
Definition stringify_entries (value : JsValue) : JsValue :=
  JArr (map (fun '(k, v) => JStr (k ++ lit ":" ++ JSON_stringify env v))
            (Object_entries value)).

Definition transformObjectValues (obj : JsObject) : JsObject :=
  foldl
    (fun acc '(key, value) =>
       if is_object value
       then obj_set acc key (stringify_entries value)
       else obj_set acc key value)
    [] obj.

Definition embedMessage (userId content : JsString) : M World Embedding :=
  start <- Date_now ;;
  try_finally
    (try_catch
       (logger_info (chalk (lit "Embedding message for user: " ++ userId)) ;;
        now <- Date_now ;;
        let messageToEmbed :=
          lit "Date: " ++ toLocaleString env now ++ lit ". User: " ++ userId
            ++ lit ". Message: " ++ content ++ lit ". Metadata: " ++ lit "" in
        embeddingValues <- embeddings_create env (embeddingApiModel env) messageToEmbed None ;;
        logger_info
          (chalk (lit "Successfully generated embeddings for message by user: " ++ userId)) ;;
        uuid <- draw_uuid env ;;
        ret {| emb_id := uuid; emb_values := embeddingValues; emb_metadata := None |})
       (fun error =>
          logger_error
            (chalk (lit "Failed to embed message for user: " ++ userId
                      ++ lit ". Error: " ++ err_message error)) ;;
          throw error))
    (finish <- Date_now ;;
     let duration := (finish - start)%N in
     logger_info
       (chalk (lit "Embedding message for user: " ++ userId ++ lit " took ")
          ++ chalk (decN duration ++ lit " ms"))).

(** The object literal [{ ...transformedMetadata, text, userId, url, citation }]. *)
Definition chunk_metadata_of (transformedMetadata : JsObject)
    (text userId : JsString) (url : option JsString) (citation : JsString) : JsObject :=
  obj_set
    (obj_set
       (obj_set
          (obj_set transformedMetadata (lit "text") (JStr text))
          (lit "userId") (JStr userId))
       (lit "url") (from_option JStr JUndefined url))
    (lit "citation") (JStr citation).

Definition pageInfo_of (metadata : JsObject) : JsString :=
  match obj_get metadata (lit "page_number") with
  | Some page_number =>
      if truthy page_number then lit ", Page " ++ String_of env page_number else lit ""
  | None => lit ""
  end.

(** The inner function of [embedDocument]; [userId] and [file] are the
    variables it closes over.  The list [chunkIdList] it pushes the id to is
    never read and is left out. *)
Definition embedChunk (userId : JsString) (file : KnowledgebaseFile)
    (chunk : ParsedElement) (index : nat) : M World Embedding :=
  controller <- new_AbortController ;;
  timeout <- setTimeout_abort 15000 controller ;;
  try_catch
    (embeddingValues <-
       embeddings_create env (embeddingApiModel env) (chunk_text chunk) (Some controller) ;;
     clearTimeout timeout ;;
     let transformedMetadata := transformObjectValues (chunk_metadata chunk) in
     fileName <-
       match file_name file with
       | Some s => ret s
       | None => throw (TypeError (lit "Cannot read properties of undefined (reading 'replace')"))
       end ;;
     let newId := toAscii fileName ++ lit "#" ++ file_key file ++ lit "#" ++ dec (index + 1) in
     let pageInfo := pageInfo_of (chunk_metadata chunk) in
     let citation :=
       lit "[" ++ tpl (file_name file) ++ pageInfo ++ lit "](" ++ tpl (file_url file) ++ lit ")" in
     let metadata :=
       chunk_metadata_of transformedMetadata (chunk_text chunk) userId (file_url file) citation in
     modify (emit EProgressIncrement) ;;
     ret {| emb_id := newId; emb_values := embeddingValues; emb_metadata := Some metadata |})
    (fun error =>
       clearTimeout timeout ;;
       (if bool_decide (err_name error = lit "AbortError")
        then logger_error (lit "Embedding request for chunk " ++ dec (index + 1) ++ lit " timed out.")
        else logger_error (lit "Failed to embed chunk " ++ dec (index + 1) ++ lit " for file: "
                             ++ tpl (file_name file) ++ lit ". Error: " ++ err_message error)) ;;
       throw error).

(** [chunks.map((chunk, index) => limiter.schedule(() => embedChunk(chunk, index)))] *)
Definition schedule_chunks (limiter : nat) (userId : JsString) (file : KnowledgebaseFile)
    (chunks : list ParsedElement) : M World (list (M World Embedding)) :=
  match setup_fault env with
  | Some e => throw e
  | None =>
      ret (imap (fun index chunk => limiter_schedule limiter (embedChunk userId file chunk index))
             chunks)
  end.

(** The loop over the settled results, from position [i] on. *)
Fixpoint process_results (i : nat) (embeddings : list (JsError + Embedding))
    (successfulEmbeddings : list Embedding) : M World (list Embedding) :=
  match embeddings with
  | [] => ret successfulEmbeddings
  | inr value :: rest => process_results (S i) rest (successfulEmbeddings ++ [value])
  | inl reason :: rest =>
      logger_error (lit "Embedding failed for chunk " ++ dec (i + 1) ++ lit ": "
                      ++ err_message reason) ;;
      process_results (S i) rest successfulEmbeddings
  end.

(** The jobs of a batch are run one after the other, in the order of the
    chunks: the value returned and the failures logged by the loop do not
    depend on how the limiter interleaves them. *)
Definition embedDocument (userId : JsString) (file : KnowledgebaseFile)
    (chunks : list ParsedElement) : M World (list Embedding) :=
  start <- Date_now ;;
  limiter <- new_Bottleneck limiter_options ;;
  modify (emit (EProgressStart (length chunks))) ;;
  try_finally
    (try_catch
       (logger_info (lit "Starting embedding process for document: " ++ tpl (file_name file)) ;;
        jobs <- schedule_chunks limiter userId file chunks ;;
        embeddings <- allSettled jobs ;;
        successfulEmbeddings <- process_results 0 embeddings [] ;;
        logger_info (lit "Successfully embedded chunks for document: " ++ tpl (file_name file)) ;;
        ret successfulEmbeddings)
       (fun error =>
          logger_error (lit "Failed to embed document: " ++ tpl (file_name file)
                          ++ lit ". Error: " ++ err_message error) ;;
          throw error))
    (finish <- Date_now ;;
     let duration := (finish - start)%N in
     logger_info (lit "Embedding document for file: " ++ tpl (file_name file)
                    ++ lit " took " ++ decN duration ++ lit " ms") ;;
     modify (emit EProgressStop)).

(** ** [src/lib/service/qdrant.ts] *)

(** [await client.upsert(collection, { points })] *)
Definition qdrant_upsert (collection : JsString) (points : list Point) : M World unit :=
  fun w => (emit (EQdrantUpsert collection points) w, client_upsert env collection points).

(** [embeddings.map((embedding) => ({ id: uuidv4(), payload, vector }))] *)
Fixpoint to_points (embeddings : list Embedding) : M World (list Point) :=
  match embeddings with
  | [] => ret []
  | embedding :: rest =>
      uuid <- draw_uuid env ;;
      points <- to_points rest ;;
      ret ({| point_id := uuid;
              payload := [(lit "embeddingId", JStr (emb_id embedding));
                          (lit "metadata", JObj (default [] (emb_metadata embedding)))];
              vector := emb_values embedding |} :: points)
  end.

Definition upsertDocument (userId : JsString) (embeddings : list Embedding) : M World nat :=
  logger_info (chalk (lit "Starting upsert for user " ++ userId)) ;;
  points <- to_points embeddings ;;
  try_catch
    (qdrant_upsert (qdrant_collection env) points ;;
     logger_info (chalk (lit "Upsert successful for user " ++ userId)) ;;
     ret (length embeddings))
    (fun error =>
       logger_error (chalk (lit "Failed to upsert for user " ++ userId ++ lit ". Error: "
                              ++ err_message error ++ lit ". Response: "
                              ++ JSON_stringify env JUndefined)) ;;
       throw error).

(** [query(userId, embeddings, topK)] as the route calls it: [embeddings] is
    an embedding object, whose [length] is undefined. *)
Definition query (userId : JsString) (embeddings : Embedding) (topK : N)
  : M World QueryResult :=
  logger_info (lit "query called with userEmail: " ++ userId ++ lit ", embeddings: "
                 ++ lit "undefined" ++ lit ", topK: " ++ decN topK) ;;
  try_catch
    (throw (new_Error (lit "query function is not implemented")))
    (fun error =>
       logger_error (chalk (lit "Query failed for user " ++ userId ++ lit ". Error: "
                              ++ err_message error)) ;;
       throw error).

Definition file_value (file : KnowledgebaseFile) : JsValue :=
  JObj [(lit "name", from_option JStr JUndefined (file_name file));
        (lit "key", JStr (file_key file));
        (lit "url", from_option JStr JUndefined (file_url file))].

(** [await client.delete(collection, { filter: { must } })] *)
Definition qdrant_delete (collection : JsString) (must : list Condition) : M World unit :=
  fun w => (emit (EQdrantDelete collection must) w, client_delete env collection must).

(** The filter of the delete request: [{ must: [{ key: 'name', match: { value:
    name } }, { key: 'url', match: { value: url } }] }]. *)
Definition delete_filter (name url : option JsString) : list Condition :=
  [ {| cond_key := lit "name"; cond_value := name |};
    {| cond_key := lit "url"; cond_value := url |} ].

Definition deleteFromVectorDb (userId : JsString) (file : KnowledgebaseFile) : M World N :=
  logger_info (lit "deleteFromVectorDb called with userId: " ++ userId ++ lit ", file: "
                 ++ JSON_stringify env (file_value file)) ;;
  try_catch
    (let name := file_name file in
     let url := file_url file in
     (if negb (truthy_str name) && negb (truthy_str url)
      then throw (new_Error (lit "No filename or URL provided for deletion."))
      else ret tt) ;;
     qdrant_delete (qdrant_collection env) (delete_filter name url) ;;
     logger_info (chalk (lit "Successfully deleted vectors for user " ++ userId
                           ++ lit " and file "
                           ++ tpl (if truthy_str name then name else url))) ;;
     ret 1%N)
    (fun error =>
       logger_error (chalk (lit "Failed to delete from vector DB for user " ++ userId
                              ++ lit ". Error: " ++ err_message error)) ;;
       throw error).


End Services.

(** ** [src/app/api/knowledgebase/route.ts] *)

(** One event of the response stream: the object [sendUpdate] serialises and
    enqueues as a [data:] line.  The stream is open for the whole session:
    [controller.enqueue] does not throw. *)
Record Event := { status : JsString; message : JsString }.

(** A retrieval session: the stream it writes, the lines the route logs, and
    the world its collaborators act on.  Only [sendUpdate] holds the stream
    controller: the collaborators cannot write to the stream. *)
Record Session := {
  stream : list Event;
  route_log : list (Level * JsString);
  world : World
}.

Definition open_session (w : World) : Session :=
  {| stream := []; route_log := []; world := w |}.

Definition sendUpdate (status message : JsString) : M Session unit :=
  fun s =>
    ({| stream := stream s ++ [ {| status := status; message := message |} ];
        route_log := route_log s; world := world s |},
     inr tt).

Definition route_logger (level : Level) (text : JsString) : M Session unit :=
  fun s =>
    ({| stream := stream s; route_log := route_log s ++ [(level, text)]; world := world s |},
     inr tt).

(** A call into a collaborator. *)
Definition call {A} (m : M World A) : M Session A :=
  fun s =>
    let '(w', r) := m (world s) in
    ({| stream := stream s; route_log := route_log s; world := w' |}, r).

(** The events of the protocol. *)
Definition Start (message : JsString) : Event :=
  {| status := lit "Retrieving context"; message := message |}.
Definition Embedding_complete (message : JsString) : Event :=
  {| status := lit "Embedding complete";
     message := lit "Message embedding complete for: " ++ message |}.
Definition Query_complete : Event :=
  {| status := lit "Query complete";
     message := lit "Query results retrieved from Pinecone." |}.
Definition Done (message : JsString) : Event :=
  {| status := lit "Done"; message := lit "Processing complete for: " ++ message |}.

Section Route.

Variable env : Env.

Definition retrieveContext (userId message : JsString) (settings : Settings)
  : M Session unit :=
  try_finally
    (try_catch
       (sendUpdate (lit "Retrieving context") message ;;
        route_logger Info (chalk (lit "Embedding message for user: " ++ userId)) ;;
        embeddingResults <- call (embedMessage env userId message) ;;
        sendUpdate (lit "Embedding complete")
          (lit "Message embedding complete for: " ++ message) ;;
        route_logger Info (chalk (lit "Message embedding complete.")) ;;
        route_logger Info (chalk (lit "Querying Vector DB Factory for context.")) ;;
        vectorDbProvider <-
          call (getVectorDbProvider env (vectorizationProvider settings)) ;;
        queryResults <-
          call (provider_query vectorDbProvider userId embeddingResults
                  (vectorDbTopK settings)) ;;
        sendUpdate (lit "Query complete") (lit "Query results retrieved from Pinecone.") ;;
        route_logger Info (chalk (lit "Query complete.")) ;;
        if (0 <? length (context queryResults))%nat
        then
          route_logger Info (chalk (lit "Reranking query results.")) ;;
          rerankingContext <-
            call (rerank env message (context queryResults) (knowledgebase settings)) ;;
          sendUpdate (lit "Reranking complete") rerankingContext ;;
          route_logger Info (chalk (lit "Reranking complete."))
        else
          sendUpdate (lit "No context") (lit "No context found for the message.") ;;
          route_logger Warn (chalk (lit "No context found for the message.")))
       (fun error =>
          sendUpdate (lit "Error") (lit "Error retrieving context: " ++ err_message error) ;;
          route_logger Error
            (chalk (lit "Error in retrieving context for user: " ++ userId
                      ++ lit ", message: " ++ err_message error))))
    (sendUpdate (lit "Done") (lit "Processing complete for: " ++ message) ;;
     route_logger Info (chalk (lit "Processing done for message: " ++ message))).

End Route.

(** ** Reading a run *)

(** The same world with [es] appended to its trace. *)
Definition emit_all (es : list Effect) (w : World) : World :=
  {| trace := trace w ++ es; clock := clock w; timers := timers w;
     create_calls := create_calls w; uuid_draws := uuid_draws w;
     handles := handles w; running_in := running_in w |}.

(** The provider requests of a trace, in order. *)
Definition requests (es : list Effect) : list CreateRequest :=
  omap (fun e => match e with ECreate r => Some r | _ => None end) es.

(** The limiters created in a trace. *)
Definition limiters (es : list Effect) : list (nat * BottleneckOptions) :=
  omap (fun e => match e with ENewLimiter l o => Some (l, o) | _ => None end) es.

(** The delete requests sent to Qdrant in a trace. *)
Definition deletions (es : list Effect) : list (JsString * list Condition) :=
  omap (fun e => match e with EQdrantDelete c must => Some (c, must) | _ => None end) es.

(** The payloads of the points upserted in a trace. *)
Definition upserted (es : list Effect) : list JsObject :=
  mjoin (omap (fun e => match e with
                        | EQdrantUpsert _ points => Some (map payload points)
                        | _ => None
                        end) es).

(** The timeouts armed in a trace. *)
Definition timeouts (es : list Effect) : list (nat * N * nat) :=
  omap (fun e => match e with ESetTimeout t ms c => Some (t, ms, c) | _ => None end) es.

Definition successes {A} (settled : list (JsError + A)) : list A :=
  omap (fun r => match r with inr a => Some a | inl _ => None end) settled.

Definition failures {A} (settled : list (JsError + A)) : list JsError :=
  omap (fun r => match r with inl e => Some e | inr _ => None end) settled.

(** The line the loop of [embedDocument] logs for the failed chunk at
    position [i]. *)
Definition failure_line (i : nat) (reason : JsError) : Effect :=
  ELog Error (lit "Embedding failed for chunk " ++ dec (i + 1) ++ lit ": "
                ++ err_message reason).

Fixpoint failure_lines {A} (i : nat) (settled : list (JsError + A)) : list Effect :=
  match settled with
  | [] => []
  | inl reason :: rest => failure_line i reason :: failure_lines (S i) rest
  | inr _ :: rest => failure_lines (S i) rest
  end.

(** The id of the chunk at position [index] of a file. *)
Definition chunk_id (name key : JsString) (index : nat) : JsString :=
  toAscii name ++ lit "#" ++ key ++ lit "#" ++ dec (index + 1).

(** What [embedChunk] settles with, read off the provider's answer to its
    request, the [n]-th: shown below to be the outcome of [embedChunk]. *)
Definition embedChunk_result (env : Env) (userId : JsString) (file : KnowledgebaseFile)
    (n : nat) (index : nat) (chunk : ParsedElement) : JsError + Embedding :=
  let reply := embeddings_reply env n (embeddingApiModel env) (chunk_text chunk) in
  if (15000 <=? latency reply)%N then inl AbortError
  else
    match response reply with
    | inl e => inl e
    | inr embeddingValues =>
        match file_name file with
        | None => inl (TypeError (lit "Cannot read properties of undefined (reading 'replace')"))
        | Some name =>
            inr {| emb_id := chunk_id name (file_key file) index;
                   emb_values := embeddingValues;
                   emb_metadata :=
                     Some (chunk_metadata_of
                             (transformObjectValues env (chunk_metadata chunk))
                             (chunk_text chunk) userId (file_url file)
                             (lit "[" ++ name ++ pageInfo_of env (chunk_metadata chunk)
                                ++ lit "](" ++ tpl (file_url file) ++ lit ")")) |}
        end
    end.

(** The settled results of a batch that starts in world [w]: chunk [i] makes
    the request number [create_calls w + i]. *)
Definition batch_results (env : Env) (userId : JsString) (file : KnowledgebaseFile)
    (chunks : list ParsedElement) (w : World) : list (JsError + Embedding) :=
  imap (fun i chunk => embedChunk_result env userId file (create_calls w + i) i chunk) chunks.

(** The request of the chunk at position [i] of a batch whose first
    controller is [c0], under limiter [limiter]. *)
Definition chunk_request (env : Env) (limiter c0 : nat) (i : nat) (chunk : ParsedElement)
  : CreateRequest :=
  {| req_model := embeddingApiModel env;
     req_input := chunk_text chunk;
     req_signal := Some (c0 + 2 * i);
     via_limiter := Some limiter |}.

(** A flat value: a primitive, or an array of strings. *)
Definition is_string (v : JsValue) : bool :=
  match v with JStr _ => true | _ => false end.

Definition flat (v : JsValue) : bool :=
  match v with
  | JObj _ => false
  | JArr items => forallb is_string items
  | _ => true
  end.

(** The value [transformObjectValues] stores for a value. *)
Definition transformed (env : Env) (value : JsValue) : JsValue :=
  if is_object value then stringify_entries env value else value.

(** ** The vector store

    Qdrant selects a point when its payload satisfies every condition of
    [must]; a condition is satisfied when the payload holds the string of
    the condition under its key.  A condition without a value is satisfied
    by no payload. *)

Definition satisfies (payload : JsObject) (c : Condition) : bool :=
  match cond_value c, obj_get payload (cond_key c) with
  | Some wanted, Some (JStr s) => bool_decide (s = wanted)
  | _, _ => false
  end.

Definition selected (must : list Condition) (payload : JsObject) : bool :=
  forallb (satisfies payload) must.

(** The points left in a collection by a delete request. *)
Definition remaining (must : list Condition) (points : list JsObject) : list JsObject :=
  List.filter (fun payload => negb (selected must payload)) points.

(** ** Scenarios *)

Definition sample_vector : list float := [0.25; -0.5; 1]%float.

(** A provider that answers after 120 ms, except for the requests in [slow],
    which it answers after 20 s, and those in [down], which it rejects. *)
Definition sample_reply (slow down : list nat) (n : nat) : Reply :=
  if bool_decide (n ∈ slow) then {| latency := 20000; response := inr sample_vector |}
  else if bool_decide (n ∈ down)
       then {| latency := 80; response := inl (new_Error (lit "429 Too Many Requests")) |}
       else {| latency := 120; response := inr sample_vector |}.

(** The runtime functions on the values of the scenarios: strings without
    characters to escape, arrays and objects of them; no numbers. *)
Definition sample_String (v : JsValue) : JsString :=
  match v with JStr s => s | _ => lit "[object Object]" end.

Definition quoted (s : JsString) : JsString := [34%N] ++ s ++ [34%N].

Fixpoint comma_separated (parts : list JsString) : JsString :=
  match parts with
  | [] => []
  | [p] => p
  | p :: rest => p ++ lit "," ++ comma_separated rest
  end.

Fixpoint sample_stringify (v : JsValue) : JsString :=
  match v with
  | JUndefined => lit "undefined"
  | JNull => lit "null"
  | JBool true => lit "true"
  | JBool false => lit "false"
  | JNum _ => lit "0"
  | JStr s => quoted s
  | JArr items => lit "[" ++ comma_separated (map sample_stringify items) ++ lit "]"
  | JObj entries =>
      lit "{"
        ++ comma_separated
             (omap (fun part => part)
                (map (fun kv =>
                        match kv with
                        | (_, JUndefined) => None
                        | (k, v) => Some (quoted k ++ lit ":" ++ sample_stringify v)
                        end)
                   entries))
        ++ lit "}"
  end.

Definition sample_uuid (n : nat) : JsString := lit "3f2b8c1e-0000-4000-8000-" ++ dec n.

Definition sample_env (slow down : list nat) (provider : Provider)
    (reranked : JsError + JsString) : Env :=
  {| OPENAI_API_EMBEDDING_MODEL := None;
     QDRANT_COLLECTION := None;
     embeddings_reply := fun n _ _ => sample_reply slow down n;
     uuidv4 := sample_uuid;
     toLocaleString := fun t => lit "11/2/2026, 9:46:" ++ decN (t `mod` 60);
     String_of := sample_String;
     JSON_stringify := sample_stringify;
     setup_fault := None;
     client_upsert := fun _ _ => inr tt;
     client_delete := fun _ _ => inr tt;
     getVectorDbProvider := fun _ => ret provider;
     rerank := fun _ _ _ => fun w => (w, reranked) |}.

(** A provider with a working query path. *)
Definition sample_store (passages : list JsValue) : Provider :=
  {| provider_query := fun _ _ _ => ret {| context := passages |} |}.

Definition sample_settings : Settings :=
  {| vectorizationProvider := lit "pinecone";
     vectorDbTopK := 2;
     knowledgebase := JObj [(lit "cohereTopN", JNum 2); (lit "cohereRelevanceThreshold", JNum 0)] |}.

Definition sample_file : KnowledgebaseFile :=
  {| file_name := Some (lit "refund-policy.pdf");
     file_key := lit "k81";
     file_url := Some (lit "https://utfs.io/f/k81") |}.

Definition sample_chunk (text : string) : ParsedElement :=
  {| chunk_text := lit text;
     chunk_metadata := [(lit "filetype", JStr (lit "application/pdf"));
                        (lit "languages", JArr [JStr (lit "eng")]);
                        (lit "page_number", JStr (lit "4"))] |}.

Definition ten_chunks : list ParsedElement :=
  map sample_chunk ["c1"; "c2"; "c3"; "c4"; "c5"; "c6"; "c7"; "c8"; "c9"; "c10"]%string.

(** A file object with a name and no url. *)
Definition name_only_file : KnowledgebaseFile :=
  {| file_name := Some (lit "refund-policy.pdf"); file_key := lit "k81"; file_url := None |}.

(** The payload of a point of that document. *)
Definition sample_payload : JsObject :=
  [(lit "name", JStr (lit "refund-policy.pdf"));
   (lit "url", JStr (lit "https://utfs.io/f/k81"))].

(** Which positions of a batch were fulfilled. *)
Definition fulfilled {A} (settled : list (JsError + A)) : list bool :=
  map (fun r => match r with inr _ => true | inl _ => false end) settled.

(** The ids a run of [embedDocument] returns. *)
Definition ids_of (run : World * (JsError + list Embedding)) : list JsString :=
  match outcome run with
  | inr embeddings => map emb_id embeddings
  | inl _ => []
  end.

Definition three_chunks : list ParsedElement :=
  map sample_chunk ["c1"; "c2"; "c3"]%string.

(** The provider answers every request in time. *)
Definition healthy_env : Env :=
  sample_env [] [] (sample_store [JStr (lit "p1"); JStr (lit "p2")]) (inr (lit "ranked")).

(** The provider is slow on the requests 2 and 6 (the chunks 3 and 7 of a
    first batch). *)
Definition slow_env : Env :=
  sample_env [2; 6] [] (sample_store [JStr (lit "p1"); JStr (lit "p2")]) (inr (lit "ranked")).

(** The provider is slow on request 1 (the second chunk of a first batch). *)
Definition slow_second_env : Env :=
  sample_env [1] [] (sample_store [JStr (lit "p1"); JStr (lit "p2")]) (inr (lit "ranked")).



(** The reranker fails. *)
Definition reranker_down_env : Env :=
  sample_env [] [] (sample_store [JStr (lit "p1"); JStr (lit "p2")])
    (inl (new_Error (lit "503 Service Unavailable"))).

Definition question : JsString := lit "What is the refund policy?".

(** Two documents embedded one after the other. *)
Definition two_batches : M World unit :=
  embedDocument healthy_env (lit "u1") sample_file [sample_chunk "c1"] ;;
  embedDocument healthy_env (lit "u1") sample_file [sample_chunk "c2"] ;;
  ret tt.

(** The provider answers the first request after 20 s. *)
Definition slow_first_env : Env :=
  sample_env [0] [] (sample_store [JStr (lit "p1"); JStr (lit "p2")]) (inr (lit "ranked")).

(** The text [embedMessage] sends to the provider when the clock shows [now]. *)
Definition messageToEmbed (env : Env) (now : N) (userId content : JsString) : JsString :=
  lit "Date: " ++ toLocaleString env now ++ lit ". User: " ++ userId
    ++ lit ". Message: " ++ content ++ lit ". Metadata: " ++ lit "".

(** ** The request handler of [route.ts], and [validateUser] *)

(** What [getUserData] hands back: the user document, of which the code reads
    [_id.toString()] and [settings]. *)
Record UserServerData := {
  user_id : JsString;
  user_settings : Settings
}.

(** The services outside the source files that the handler and the file
    functions reach: the user store ('@/lib/service/mongodb') and the files
    API of the provider. *)
Record Backend := {
  (* getUserData(userId); [None] is a null result *)
  getUserData : JsString -> M World (option UserServerData);
  (* the answer of openai.files.del to its n-th call, for a file id: its
     latency and the FileDeleted object or the error *)
  files_del_reply : nat -> JsString -> N * (JsError + JsValue)
}.

(** [validateUser] of the utilities module. *)
Definition validateUser (backend : Backend) (userId : JsString) : M World UserServerData :=
  userServerData <- getUserData backend userId ;;
  match userServerData with
  | None => throw (TypeError (lit "Cannot read properties of null (reading '_id')"))
  | Some data =>
      if bool_decide (user_id data = userId)
      then ret data
      else throw (new_Error (lit "Invalid user"))
  end.

(** The query string of a request: [searchParams.get] gives [null] for a
    parameter that is not there. *)
Record Request := {
  param_userId : option JsString;
  param_message : option JsString
}.

Inductive StreamEnd :=
| Closed                        (* controller.close() *)
| Errored (error : JsError).    (* controller.error(err) *)

Inductive Body :=
| Json (value : JsValue)                                (* NextResponse.json(value, init) *)
| Text (text : JsString)                                (* new NextResponse(text, init) *)
| Stream (chunks : list JsString) (ending : StreamEnd). (* new NextResponse(stream, init) *)

(** A response: the status and the headers the code sets, and the body. *)
Record Response := {
  resp_status : N;
  resp_headers : list (JsString * JsString);
  resp_body : Body
}.

(** The chunk [sendUpdate] enqueues for an event:
    [`data: ${JSON.stringify({ status, message })}\n\n`]. *)
Definition frame (env : Env) (ev : Event) : JsString :=
  lit "data: "
    ++ JSON_stringify env (JObj [(lit "status", JStr (status ev));
                                 (lit "message", JStr (message ev))])
    ++ [10%N; 10%N].

Section Handler.

Variable env : Env.
Variable backend : Backend.

Definition handleErrorResponse (error : JsError) : M Session Response :=
  let status :=
    if bool_decide (err_message error ∈ [lit "Invalid user"; lit "Invalid file IDs"])
    then 400%N else 500%N in
  route_logger Error (chalk (lit "Returning error response: " ++ err_message error)) ;;
  ret {| resp_status := status;
         resp_headers := [];
         resp_body :=
           Text (JSON_stringify env
                   (JObj [(lit "message",
                           JStr (match err_message error with
                                 | [] => lit "Internal server error"
                                 | text => text
                                 end))])) |}.

(** The stream the handler builds: [start] runs [retrieveContext] with
    [sendUpdate] bound to the controller, closes the stream when it resolves
    and puts it in error when it rejects.  The handler returns the response
    at once; the body is the stream as the session leaves it. *)
Definition stream_session (userId message : JsString) (settings : Settings)
  : M Session Body :=
  fun s =>
    match retrieveContext env userId message settings s with
    | (s', inr _) => (s', inr (Stream (map (frame env) (stream s')) Closed))
    | (s', inl err) =>
        match route_logger Error
                (chalk (lit "Error retrieving context: " ++ err_message err)) s' with
        | (s'', _) => (s'', inr (Stream (map (frame env) (stream s'')) (Errored err)))
        end
    end.

Definition GET (req : Request) : M Session Response :=
  try_catch
    (route_logger Info (chalk (lit "GET request received for retrieving context.")) ;;
     match param_userId req, param_message req with
     | Some (c :: u), Some (d :: m) =>
         let userId := c :: u in
         let message := d :: m in
         userServerData <- call (validateUser backend userId) ;;
         route_logger Info (chalk (lit "User validated successfully: " ++ userId)) ;;
         let settings := user_settings userServerData in
         stream <- stream_session userId message settings ;;
         ret {| resp_status := 200;
                resp_headers := [(lit "Content-Type", lit "text/event-stream");
                                 (lit "Cache-Control", lit "no-cache");
                                 (lit "Connection", lit "keep-alive")];
                resp_body := stream |}
     | _, _ =>
         (* !userId || !message *)
         route_logger Warn (chalk (lit "Missing userId or message in request.")) ;;
         ret {| resp_status := 400;
                resp_headers := [];
                resp_body := Json (JObj [(lit "error",
                                          JStr (lit "No userId or message provided"))]) |}
     end)
    (fun error =>
       route_logger Error (chalk (lit "Error in GET request: " ++ err_message error)) ;;
       handleErrorResponse error).

End Handler.

(** ** [deleteFile] of [openai.ts] *)

(** The files API next to the world: the file ids whose deletion was
    requested so far, in order. *)
Record Drive := {
  drive_world : World;
  del_requests : list JsString
}.

Definition on_world {A} (m : M World A) : M Drive A :=
  fun d =>
    let '(w', r) := m (drive_world d) in
    ({| drive_world := w'; del_requests := del_requests d |}, r).

(** [await openai.files.del(fileId)] *)
Definition files_del (backend : Backend) (fileId : JsString) : M Drive JsValue :=
  fun d =>
    let '(latency, reply) := files_del_reply backend (length (del_requests d)) fileId in
    ({| drive_world := set_clock (clock (drive_world d) + latency) (drive_world d);
        del_requests := del_requests d ++ [fileId] |},
     reply).

(** [parts.join(separator)] *)
Fixpoint join (separator : JsString) (parts : list JsString) : JsString :=
  match parts with
  | [] => []
  | [part] => part
  | part :: rest => part ++ separator ++ join separator rest
  end.

(** The loop [for (const fileId of fileIds)]; [deletedFiles] is the array it
    pushes to. *)
Fixpoint delete_each (backend : Backend) (fileIds : list JsString)
    (deletedFiles : list JsValue) : M Drive (list JsValue) :=
  match fileIds with
  | [] => ret deletedFiles
  | fileId :: rest =>
      fileStart <- on_world Date_now ;;
      on_world (logger_info (chalk (lit "Deleting file with ID: " ++ fileId))) ;;
      deletedFile <- files_del backend fileId ;;
      finish <- on_world Date_now ;;
      let fileDuration := (finish - fileStart)%N in
      on_world (logger_info (chalk (lit "Deleting file with ID: " ++ fileId ++ lit " took ")
                               ++ chalk (decN fileDuration ++ lit " ms"))) ;;
      on_world (logger_info (chalk (lit "Successfully deleted file with ID: " ++ fileId))) ;;
      delete_each backend rest (deletedFiles ++ [deletedFile])
  end.

Definition deleteFile (backend : Backend) (fileIds : list JsString)
  : M Drive (list JsValue) :=
  start <- on_world Date_now ;;
  try_finally
    (try_catch
       (on_world (logger_info
                    (chalk (lit "Starting file deletion process for file IDs: "
                              ++ join (lit ", ") fileIds))) ;;
        deletedFiles <- delete_each backend fileIds [] ;;
        on_world (logger_info
                    (chalk (lit "File deletion process completed for file IDs: "
                              ++ join (lit ", ") fileIds))) ;;
        ret deletedFiles)
       (fun error =>
          on_world (logger_error
                      (chalk (lit "Failed to delete files. Error: " ++ err_message error))) ;;
          throw error))
    (finish <- on_world Date_now ;;
     let duration := (finish - start)%N in
     on_world (logger_info (chalk (lit "File deletion process took ")
                              ++ chalk (decN duration ++ lit " ms")))).

(** The answer of the files API to the deletion of the file at position [i]
    of a list, when [base] deletions were requested before. *)
Definition del_answer (backend : Backend) (base i : nat) (fileId : JsString)
  : JsError + JsValue :=
  (files_del_reply backend (base + i) fileId).2.

(** A user store that knows one user, under the id [known]. *)
Definition sample_backend (known : JsString) : Backend :=
  {| getUserData := fun _ =>
       ret (Some {| user_id := known; user_settings := sample_settings |});
     files_del_reply := fun _ fileId =>
       (40%N, inr (JObj [(lit "id", JStr fileId); (lit "deleted", JBool true)])) |}.

Definition sample_request : Request :=
  {| param_userId := Some (lit "u1"); param_message := Some question |}.

(** A files API that refuses the deletion of the file [locked]. *)
Definition locked_backend (locked : JsString) : Backend :=
  {| getUserData := fun _ => ret None;
     files_del_reply := fun _ fileId =>
       if bool_decide (fileId = locked)
       then (15%N, inl (new_Error (lit "409 Conflict")))
       else (40%N, inr (JObj [(lit "id", JStr fileId); (lit "deleted", JBool true)])) |}.

Definition empty_drive : Drive := {| drive_world := boot; del_requests := [] |}.

(** ** Reading a run, continued *)

(** The upsert requests of a trace: the collection and the points of each. *)
Definition upsert_requests (es : list Effect) : list (JsString * list Point) :=
  omap (fun e => match e with EQdrantUpsert c points => Some (c, points) | _ => None end) es.

(** The calls on the progress bar in a trace. *)
Definition progress (es : list Effect) : list Effect :=
  List.filter
    (fun e => match e with
              | EProgressStart _ | EProgressIncrement | EProgressStop => true
              | _ => false
              end)
    es.

(** The payload [upsertDocument] gives the point of an embedding. *)
Definition payload_of (embedding : Embedding) : JsObject :=
  [(lit "embeddingId", JStr (emb_id embedding));
   (lit "metadata", JObj (default [] (emb_metadata embedding)))].

(** Two embeddings of a document, the second without metadata. *)
Definition sample_embeddings : list Embedding :=
  [{| emb_id := lit "refund-policy.pdf#k81#1";
      emb_values := sample_vector;
      emb_metadata := Some [(lit "text", JStr (lit "Refunds are issued within 14 days."))] |};
   {| emb_id := lit "refund-policy.pdf#k81#2";
      emb_values := sample_vector;
      emb_metadata := None |}].

(** ** The session on a stream that can be cancelled

    Above, the stream of a session is a list that takes every write, and
    what a collaborator throws is an [Error] object.  The code of the route
    depends on neither: the consumer of the response may cancel the stream,
    after which [controller.enqueue] throws, and a [catch] clause receives
    whatever value a promise was rejected with.  [Wire] gives
    [sendUpdate], [retrieveContext] and the [start] callback of the stream
    of [GET] over a controller that can refuse a write and collaborators
    that can reject with any value. *)

Module Wire.

(** What a [catch (error: any)] clause receives. *)
Inductive Thrown :=
| AnError (error : JsError)      (* an [Error] object *)
| AValue (value : JsValue).      (* any other value *)

Definition nullish (thrown : Thrown) : bool :=
  match thrown with
  | AValue JNull | AValue JUndefined => true
  | _ => false
  end.

(** [`${error.message}`]: reading a property of [null] or [undefined]
    throws a TypeError; a value without a [message] gives [undefined]. *)
Definition message_text (env : Env) (thrown : Thrown) : JsError + JsString :=
  match thrown with
  | AnError error => inr (err_message error)
  | AValue JNull =>
      inl (TypeError (lit "Cannot read properties of null (reading 'message')"))
  | AValue JUndefined =>
      inl (TypeError (lit "Cannot read properties of undefined (reading 'message')"))
  | AValue (JObj entries) =>
      inr (match obj_get entries (lit "message") with
           | Some value => String_of env value
           | None => lit "undefined"
           end)
  | AValue _ => inr (lit "undefined")
  end.

(** A session and the consumer of its stream: [reads] is the number of
    chunks the consumer still takes before it cancels the stream, [None] for
    a consumer that reads to the end. *)
Record Piped := {
  session : Session;
  reads : option nat
}.

(** The controller takes a chunk, and can be closed, as long as the consumer
    has not cancelled the stream. *)
Definition readable (p : Piped) : bool :=
  match reads p with
  | Some 0 => false
  | _ => true
  end.

(** A computation on a session with a consumer. *)
Definition W (A : Type) : Type := Piped -> Piped * (Thrown + A).

Definition ret {A} (a : A) : W A := fun p => (p, inr a).

Definition throw {A} (thrown : Thrown) : W A := fun p => (p, inl thrown).

Definition bind {A B} (m : W A) (k : A -> W B) : W B :=
  fun p =>
    match m p with
    | (p', inr a) => k a p'
    | (p', inl thrown) => (p', inl thrown)
    end.

Declare Scope wire_scope.
Notation "x <- m ;; k" := (bind m (fun x => k))
  (at level 100, m at level 99, k at level 200, right associativity, only parsing)
  : wire_scope.
Notation "m ;; k" := (bind m (fun _ => k))
  (at level 100, k at level 200, right associativity, only parsing) : wire_scope.
Local Open Scope wire_scope.

(** [try { body } catch (error) { handler }], and [promise.catch(handler)] *)
Definition try_catch {A} (body : W A) (handler : Thrown -> W A) : W A :=
  fun p =>
    match body p with
    | (p', inl thrown) => handler thrown p'
    | done => done
    end.

(** [try { body } finally { cleanup }] *)
Definition try_finally {A} (body : W A) (cleanup : W unit) : W A :=
  fun p =>
    let '(p1, r) := body p in
    match cleanup p1 with
    | (p2, inr _) => (p2, r)
    | (p2, inl thrown) => (p2, inl thrown)
    end.

Definition outcome {A} (r : Piped * (Thrown + A)) : Thrown + A := r.2.
Definition after {A} (r : Piped * (Thrown + A)) : Piped := r.1.

(** A function of the source files, or one that throws [Error] objects
    only. *)
Definition own {A} (m : M World A) : World -> World * (Thrown + A) :=
  fun w =>
    match m w with
    | (w', inr a) => (w', inr a)
    | (w', inl error) => (w', inl (AnError error))
    end.

(** A call into a collaborator. *)
Definition call {A} (m : World -> World * (Thrown + A)) : W A :=
  fun p =>
    let '(w', r) := m (world (session p)) in
    ({| session := {| stream := stream (session p);
                      route_log := route_log (session p);
                      world := w' |};
        reads := reads p |}, r).

Definition route_logger (level : Level) (text : JsString) : W unit :=
  fun p =>
    ({| session := {| stream := stream (session p);
                      route_log := route_log (session p) ++ [(level, text)];
                      world := world (session p) |};
        reads := reads p |}, inr tt).

(** The provider the factory hands out. *)
Record Supplier := {
  supplier_query : JsString -> Embedding -> N -> World -> World * (Thrown + QueryResult)
}.

(** What lies outside the source files: the factory of the vector store
    and the reranker, which may reject with any value, and the runtime of
    the stream. *)
Record Outside := {
  (* '@/lib/service/vector-db/factory' *)
  the_getVectorDbProvider : JsString -> World -> World * (Thrown + Supplier);
  (* '@/lib/service/cohere' *)
  the_rerank : JsString -> list JsValue -> JsValue -> World -> World * (Thrown + JsString);
  (* the TypeError [controller.enqueue] and [controller.close] throw on a
     stream that is no longer readable; its message is the runtime's *)
  closed_error : JsError
}.

(** No collaborator rejects with [null] or [undefined]. *)
Definition speaks (outside : Outside) : Prop :=
  (forall name w w' thrown,
      the_getVectorDbProvider outside name w = (w', inl thrown) -> nullish thrown = false) /\
  (forall name w w' supplier userId embedding topK w1 w2 thrown,
      the_getVectorDbProvider outside name w = (w', inr supplier) ->
      supplier_query supplier userId embedding topK w1 = (w2, inl thrown) ->
      nullish thrown = false) /\
  (forall message passages settings w w' thrown,
      the_rerank outside message passages settings w = (w', inl thrown) ->
      nullish thrown = false).

(** The collaborators of an environment, which throw [Error] objects. *)
Definition outside_of (env : Env) (closed : JsError) : Outside :=
  {| the_getVectorDbProvider := fun name w =>
       match getVectorDbProvider env name w with
       | (w', inr provider) =>
           (w', inr {| supplier_query := fun userId embedding topK =>
                         own (provider_query provider userId embedding topK) |})
       | (w', inl error) => (w', inl (AnError error))
       end;
     the_rerank := fun message passages settings =>
       own (rerank env message passages settings);
     closed_error := closed |}.

Section Route.

Variable env : Env.
Variable outside : Outside.

(** [sendUpdate(status, message, controller)]: [controller.enqueue] throws
    once the consumer has cancelled the stream. *)
Definition sendUpdate (status message : JsString) : W unit :=
  fun p =>
    let written :=
      {| stream := stream (session p) ++ [ {| status := status; message := message |} ];
         route_log := route_log (session p);
         world := world (session p) |} in
    match reads p with
    | Some 0 => (p, inl (AnError (closed_error outside)))
    | Some (S n) => ({| session := written; reads := Some n |}, inr tt)
    | None => ({| session := written; reads := None |}, inr tt)
    end.

(** [error.message], read in a template string. *)
Definition message_of (error : Thrown) : W JsString :=
  fun p =>
    match message_text env error with
    | inr text => (p, inr text)
    | inl typeError => (p, inl (AnError typeError))
    end.

(** [retrieveContext(userId, message, settings, sendUpdate)] *)
Definition retrieveContext (userId message : JsString) (settings : Settings)
    (sendUpdate : JsString -> JsString -> W unit) : W unit :=
  try_finally
    (try_catch
       (sendUpdate (lit "Retrieving context") message ;;
        route_logger Info (chalk (lit "Embedding message for user: " ++ userId)) ;;
        embeddingResults <- call (own (embedMessage env userId message)) ;;
        sendUpdate (lit "Embedding complete")
          (lit "Message embedding complete for: " ++ message) ;;
        route_logger Info (chalk (lit "Message embedding complete.")) ;;
        route_logger Info (chalk (lit "Querying Vector DB Factory for context.")) ;;
        vectorDbProvider <-
          call (the_getVectorDbProvider outside (vectorizationProvider settings)) ;;
        queryResults <-
          call (supplier_query vectorDbProvider userId embeddingResults
                  (vectorDbTopK settings)) ;;
        sendUpdate (lit "Query complete") (lit "Query results retrieved from Pinecone.") ;;
        route_logger Info (chalk (lit "Query complete.")) ;;
        if (0 <? length (context queryResults))%nat
        then
          route_logger Info (chalk (lit "Reranking query results.")) ;;
          rerankingContext <-
            call (the_rerank outside message (context queryResults)
                    (knowledgebase settings)) ;;
          sendUpdate (lit "Reranking complete") rerankingContext ;;
          route_logger Info (chalk (lit "Reranking complete."))
        else
          sendUpdate (lit "No context") (lit "No context found for the message.") ;;
          route_logger Warn (chalk (lit "No context found for the message.")))
       (fun error =>
          text <- message_of error ;;
          sendUpdate (lit "Error") (lit "Error retrieving context: " ++ text) ;;
          text' <- message_of error ;;
          route_logger Error
            (chalk (lit "Error in retrieving context for user: " ++ userId
                      ++ lit ", message: " ++ text'))))
    (sendUpdate (lit "Done") (lit "Processing complete for: " ++ message) ;;
     route_logger Info (chalk (lit "Processing done for message: " ++ message))).

(** How the stream of a response ends. *)
Inductive Ending :=
| ClosedByHandler                   (* controller.close() *)
| ErroredWith (error : Thrown)      (* controller.error(err), on a readable stream *)
| CancelledByConsumer.              (* the consumer left; close throws, error does nothing *)

(** [controller.close()] *)
Definition close : W Ending :=
  fun p =>
    if readable p then (p, inr ClosedByHandler)
    else (p, inl (AnError (closed_error outside))).

(** [controller.error(err)]: without effect on a stream that is not
    readable. *)
Definition controller_error (err : Thrown) : W Ending :=
  fun p => (p, inr (if readable p then ErroredWith err else CancelledByConsumer)).

(** The [start] callback of the stream [GET] builds:
    [retrieveContext(...).then(() => controller.close()).catch((err) => {...})].
    It results in the way the stream ends; an exception that leaves it is a
    rejection nobody handles. *)
Definition start (userId message : JsString) (settings : Settings) : W Ending :=
  try_catch
    (retrieveContext userId message settings sendUpdate ;;
     close)
    (fun err =>
       text <- message_of err ;;
       route_logger Error (chalk (lit "Error retrieving context: " ++ text)) ;;
       controller_error err).

End Route.

(** A session on a new stream, with a consumer that takes [taken] chunks. *)
Definition open_to (taken : option nat) (w : World) : Piped :=
  {| session := open_session w; reads := taken |}.

End Wire.

(** What Node's stream controller throws once the stream is closed. *)
Definition sample_closed_error : JsError :=
  TypeError (lit "Invalid state: Controller is already closed").

(** The factory rejects with [null]. *)
Definition silent_outside : Wire.Outside :=
  {| Wire.the_getVectorDbProvider := fun _ w => (w, inl (Wire.AValue JNull));
     Wire.the_rerank := fun _ _ _ w => (w, inr (lit "ranked"));
     Wire.closed_error := sample_closed_error |}.

(** * Properties *)

(** ** Literals and decimal digits *)

Lemma lit_inj s1 s2 : lit s1 = lit s2 -> s1 = s2.
Proof.
  revert s2. induction s1 as [|a s1 IH]; intros [|b s2]; simpl; try discriminate.
  - reflexivity.
  - intros [= Hab Hrest]. f_equal.
    + rewrite <- (Ascii.ascii_N_embedding a), <- (Ascii.ascii_N_embedding b).
      by rewrite Hab.
    + by apply IH.
Qed.

Lemma dec_inj n m : dec n = dec m -> n = m.
Proof.
  unfold dec. intros H%lit_inj.
  apply DecimalNat.Unsigned.to_uint_inj.
  assert (forall k, Nat.to_uint k <> Decimal.Nil) as Hnonnil.
  { intros k. rewrite <- (DecimalNat.Unsigned.of_to k) at 1.
    rewrite DecimalNat.Unsigned.to_of. apply DecimalFacts.unorm_nonnil. }
  apply (f_equal NilZero.uint_of_string) in H.
  rewrite !NilZero.usu in H by apply Hnonnil.
  congruence.
Qed.

(** Literals stay folded in the goals. *)
Opaque lit dec decN.

(** ** Objects *)

Lemma obj_set_fresh (o : JsObject) key value :
  key ∉ keys o -> obj_set o key value = o ++ [(key, value)].
Proof.
  induction o as [|[k v] o IH]; simpl; intros Hfresh; [reflexivity|].
  apply not_elem_of_cons in Hfresh as [Hne Hfresh].
  rewrite bool_decide_eq_false_2 by congruence.
  by rewrite IH.
Qed.

Lemma obj_get_set (o : JsObject) key value key' :
  obj_get (obj_set o key value) key' =
    if bool_decide (key = key') then Some value else obj_get o key'.
Proof.
  induction o as [|[k v] o IH]; simpl.
  - reflexivity.
  - destruct (decide (k = key)) as [->|Hne].
    + rewrite bool_decide_eq_true_2 by reflexivity. simpl.
      by destruct (bool_decide (key = key')).
    + rewrite bool_decide_eq_false_2 by done. simpl.
      destruct (decide (k = key')) as [->|Hne'].
      * rewrite bool_decide_eq_true_2 by reflexivity.
        by rewrite bool_decide_eq_false_2 by congruence.
      * rewrite bool_decide_eq_false_2 by done. apply IH.
Qed.

Lemma obj_get_Some_elem (o : JsObject) key value :
  obj_get o key = Some value -> (key, value) ∈ o.
Proof.
  induction o as [|[k v] o IH]; simpl; [done|].
  case_bool_decide as Hk.
  - intros [= ->]. subst. left.
  - intros H. right. by apply IH.
Qed.

Lemma obj_set_values (P : JsValue -> Prop) (o : JsObject) key value :
  Forall (fun kv => P kv.2) o -> P value -> Forall (fun kv => P kv.2) (obj_set o key value).
Proof.
  intros Ho Hv. induction Ho as [|[k v] o Hkv Ho IH]; simpl.
  - by repeat constructor.
  - case_bool_decide; constructor; done.
Qed.

Section Flattening.

Variable env : Env.

Lemma flat_transformed value : flat (transformed env value) = true.
Proof.
  unfold transformed. destruct value; simpl; try reflexivity.
  - apply forallb_forall. intros v [[k x] [<- _]]%in_map_iff. reflexivity.
  - apply forallb_forall. intros v [[k x] [<- _]]%in_map_iff. reflexivity.
Qed.

(** [reduce] keeps the entries in place once the accumulator holds none of
    the keys still to come. *)
Lemma transformObjectValues_from (obj acc : JsObject) :
  NoDup (keys acc ++ keys obj) ->
  foldl
    (fun acc '(key, value) =>
       if is_object value
       then obj_set acc key (stringify_entries env value)
       else obj_set acc key value)
    acc obj
  = acc ++ map (fun kv => (kv.1, transformed env kv.2)) obj.
Proof.
  revert acc. induction obj as [|[k v] obj IH]; intros acc Hnd; simpl.
  - by rewrite app_nil_r.
  - assert (k ∉ keys acc) as Hfresh.
    { apply NoDup_app in Hnd as (_ & Hdisj & _). intros Hin.
      apply (Hdisj k Hin). simpl. left. }
    assert (obj_set acc k (transformed env v) = acc ++ [(k, transformed env v)]) as Hset
      by (by apply obj_set_fresh).
    assert ((if is_object v then obj_set acc k (stringify_entries env v) else obj_set acc k v)
            = acc ++ [(k, transformed env v)]) as ->.
    { rewrite <- Hset. unfold transformed. by destruct (is_object v). }
    rewrite IH.
    + by rewrite <- app_assoc.
    + unfold keys in *. rewrite fmap_app. simpl. rewrite <- app_assoc. exact Hnd.
Qed.

Lemma transformObjectValues_map (obj : JsObject) :
  NoDup (keys obj) ->
  transformObjectValues env obj = map (fun kv => (kv.1, transformed env kv.2)) obj.
Proof.
  intros Hnd. unfold transformObjectValues.
  by rewrite transformObjectValues_from.
Qed.

Lemma obj_get_map_transformed (obj : JsObject) key :
  obj_get (map (fun kv => (kv.1, transformed env kv.2)) obj) key
  = transformed env <$> obj_get obj key.
Proof.
  induction obj as [|[k v] obj IH]; simpl; [reflexivity|].
  by case_bool_decide.
Qed.

(** Whatever the entries, every value the reduction stores is flat. *)
Lemma transformObjectValues_values (obj : JsObject) :
  Forall (fun kv => flat kv.2 = true) (transformObjectValues env obj).
Proof.
  unfold transformObjectValues.
  assert (forall acc : JsObject,
             Forall (fun kv => flat kv.2 = true) acc ->
             Forall (fun kv => flat kv.2 = true)
               (foldl
                  (fun acc '(key, value) =>
                     if is_object value
                     then obj_set acc key (stringify_entries env value)
                     else obj_set acc key value)
                  acc obj)) as Hgen.
  { induction obj as [|[k v] obj IH]; intros acc Hacc; simpl; [done|].
    apply IH.
    pose proof (flat_transformed v) as Hv. unfold transformed in Hv.
    destruct (is_object v); by apply (obj_set_values (fun x => flat x = true)). }
  apply Hgen. constructor.
Qed.

Lemma chunk_metadata_of_values (transformedMetadata : JsObject) text userId url citation :
  Forall (fun kv => flat kv.2 = true) transformedMetadata ->
  Forall (fun kv => flat kv.2 = true)
    (chunk_metadata_of transformedMetadata text userId url citation).
Proof.
  intros H. unfold chunk_metadata_of.
  repeat apply (obj_set_values (fun x => flat x = true)); try done.
  by destruct url.
Qed.

End Flattening.

(** ** Reading traces *)

Lemma requests_app es1 es2 : requests (es1 ++ es2) = requests es1 ++ requests es2.
Proof. apply omap_app. Qed.

Lemma limiters_app es1 es2 : limiters (es1 ++ es2) = limiters es1 ++ limiters es2.
Proof. apply omap_app. Qed.

Lemma timeouts_app es1 es2 : timeouts (es1 ++ es2) = timeouts es1 ++ timeouts es2.
Proof. apply omap_app. Qed.

Lemma deletions_app es1 es2 : deletions (es1 ++ es2) = deletions es1 ++ deletions es2.
Proof. apply omap_app. Qed.

(** ** One chunk *)

Section Chunk.

Variable env : Env.
Variable userId : JsString.
Variable file : KnowledgebaseFile.

Ltac run_chunk :=
  unfold embedChunk, bind, try_catch, new_AbortController, setTimeout_abort,
    embeddings_create, clearTimeout, modify, ret, throw, logger_error,
    outcome, after; simpl.

(** A chunk that is embedded gets the id of its position, the vector of the
    provider and the flattened metadata; this needs a file name. *)
Lemma embedChunk_fulfilled chunk index w e :
  outcome (embedChunk env userId file chunk index w) = inr e ->
  exists name embeddingValues,
    file_name file = Some name /\
    e = {| emb_id := chunk_id name (file_key file) index;
           emb_values := embeddingValues;
           emb_metadata :=
             Some (chunk_metadata_of
                     (transformObjectValues env (chunk_metadata chunk))
                     (chunk_text chunk) userId (file_url file)
                     (lit "[" ++ name ++ pageInfo_of env (chunk_metadata chunk)
                        ++ lit "](" ++ tpl (file_url file) ++ lit ")")) |}.
Proof.
  run_chunk.
  destruct (List.find _ _) as [t|]; simpl.
  { rewrite bool_decide_eq_true_2 by reflexivity. simpl. discriminate. }
  destruct (response _) as [error|embeddingValues]; simpl.
  { destruct (bool_decide _); simpl; discriminate. }
  destruct (file_name file) as [name|]; simpl.
  - intros [= <-]. by exists name, embeddingValues.
  - rewrite bool_decide_eq_false_2 by discriminate. simpl. discriminate.
Qed.

(** With no timeout pending, [embedChunk] settles as [embedChunk_result]
    says; it makes one request, under the limiter that runs it and with a
    controller of its own, arms one timeout of 15 s, and leaves no timeout
    pending. *)
Lemma embedChunk_run chunk index w :
  timers w = [] ->
  exists w' added,
    embedChunk env userId file chunk index w
      = (w', embedChunk_result env userId file (create_calls w) index chunk) /\
    trace w' = trace w ++ added /\
    requests added = [ {| req_model := embeddingApiModel env;
                          req_input := chunk_text chunk;
                          req_signal := Some (handles w);
                          via_limiter := running_in w |} ] /\
    limiters added = [] /\
    timeouts added = [(S (handles w), 15000%N, handles w)] /\
    timers w' = [] /\
    create_calls w' = S (create_calls w) /\
    handles w' = S (S (handles w)) /\
    running_in w' = running_in w /\
    uuid_draws w' = uuid_draws w.
Proof.
  intros Hquiet. unfold embedChunk_result. run_chunk. rewrite Hquiet. simpl.
  rewrite Nat.eqb_refl. simpl.
  set (reply := embeddings_reply env (create_calls w) (embeddingApiModel env) (chunk_text chunk)).
  assert ((clock w + 15000 <=? clock w + latency reply)%N = (15000 <=? latency reply)%N) as ->.
  { destruct (N.leb_spec 15000 (latency reply)) as [H|H].
    - apply N.leb_le. lia.
    - apply N.leb_gt. lia. }
  destruct (15000 <=? latency reply)%N; simpl.
  { rewrite bool_decide_eq_true_2 by reflexivity. simpl.
    rewrite Nat.eqb_refl. simpl.
    eexists _, _. split; [reflexivity|]. simpl.
    rewrite <- !app_assoc. split; [reflexivity|]. simpl.
    repeat split; reflexivity. }
  rewrite Nat.eqb_refl. simpl.
  destruct (response reply) as [error|embeddingValues]; simpl.
  { rewrite Nat.eqb_refl. simpl.
    destruct (bool_decide (err_name error = lit "AbortError")); simpl;
      (eexists _, _; split; [reflexivity|]; simpl;
       rewrite <- !app_assoc; split; [reflexivity|]; simpl; repeat split; reflexivity). }
  destruct (file_name file) as [name|]; simpl.
  - eexists _, _. split; [reflexivity|]. simpl.
    rewrite <- !app_assoc. split; [reflexivity|]. simpl.
    repeat split; reflexivity.
  - rewrite bool_decide_eq_false_2 by discriminate. simpl.
    eexists _, _. split; [reflexivity|]. simpl.
    rewrite <- !app_assoc. split; [reflexivity|]. simpl.
    repeat split; reflexivity.
Qed.

End Chunk.

(** ** A batch *)

Lemma emit_all_nil w : emit_all [] w = w.
Proof. destruct w. unfold emit_all. simpl. by rewrite app_nil_r. Qed.

Lemma emit_all_cons e es w : emit_all es (emit e w) = emit_all (e :: es) w.
Proof. unfold emit_all, emit. simpl. by rewrite <- app_assoc. Qed.

Lemma successes_length {A} (settled : list (JsError + A)) :
  length (successes settled) + length (failures settled) = length settled.
Proof.
  induction settled as [|[e|a] settled IH]; simpl; [reflexivity| |];
    unfold successes, failures in *; simpl; lia.
Qed.

Lemma failure_lines_length {A} i (settled : list (JsError + A)) :
  length (failure_lines i settled) = length (failures settled).
Proof.
  revert i. induction settled as [|[e|a] settled IH]; intros i; simpl; [reflexivity| |].
  - unfold failures in *. simpl. by rewrite IH.
  - apply IH.
Qed.

(** Each failed position has its line, with its 1-based index and the
    message of its reason. *)
Lemma failure_lines_lookup {A} k (settled : list (JsError + A)) i reason :
  settled !! i = Some (inl reason) ->
  failure_line (k + i) reason ∈ failure_lines k settled.
Proof.
  revert k i. induction settled as [|r settled IH]; intros k i; [done|].
  destruct i as [|i]; simpl.
  - intros [= ->]. rewrite Nat.add_0_r. left.
  - intros Hi. apply (IH (S k)) in Hi. rewrite Nat.add_succ_r.
    destruct r; [right|]; exact Hi.
Qed.

(** The loop returns the fulfilled values, in order, and logs one line per
    rejected result; it throws nothing. *)
Lemma process_results_run i (settled : list (JsError + Embedding)) acc w :
  process_results i settled acc w
  = (emit_all (failure_lines i settled) w, inr (acc ++ successes settled)).
Proof.
  revert i acc w. induction settled as [|[reason|value] settled IH]; intros i acc w; simpl.
  - unfold ret. by rewrite emit_all_nil, app_nil_r.
  - unfold bind, logger_error, modify. rewrite IH. by rewrite emit_all_cons.
  - rewrite IH. unfold successes. simpl. by rewrite <- app_assoc.
Qed.

Section Batch.

Variable env : Env.
Variable userId : JsString.
Variable file : KnowledgebaseFile.

Lemma scheduled_chunk_run limiter chunk index w :
  timers w = [] ->
  exists w' added,
    limiter_schedule limiter (embedChunk env userId file chunk index) w
      = (w', embedChunk_result env userId file (create_calls w) index chunk) /\
    trace w' = trace w ++ added /\
    requests added = [chunk_request env limiter (handles w) 0 chunk] /\
    limiters added = [] /\
    timeouts added = [(S (handles w), 15000%N, handles w)] /\
    timers w' = [] /\
    create_calls w' = S (create_calls w) /\
    handles w' = S (S (handles w)) /\
    running_in w' = running_in w.
Proof.
  intros Hquiet. unfold limiter_schedule.
  destruct (embedChunk_run env userId file chunk index (set_running_in (Some limiter) w))
    as (w1 & added & Hrun & Htrace & Hreq & Hlim & Htim & Hq & Hcalls & Hh & _ & _);
    [exact Hquiet|].
  rewrite Hrun. simpl in *.
  exists (set_running_in (running_in w) w1), added.
  unfold chunk_request. rewrite Nat.add_0_r.
  repeat split; simpl; assumption.
Qed.

Lemma scheduled_chunks_run limiter chunks :
  forall k w,
    timers w = [] ->
    exists w' added,
      allSettled
        (imap (fun i chunk => limiter_schedule limiter (embedChunk env userId file chunk (k + i)))
           chunks) w
        = (w', inr (imap (fun i chunk =>
                            embedChunk_result env userId file (create_calls w + i) (k + i) chunk)
                      chunks)) /\
      trace w' = trace w ++ added /\
      requests added = imap (chunk_request env limiter (handles w)) chunks /\
      limiters added = [] /\
      timeouts added
        = imap (fun i _ => (S (handles w + 2 * i), 15000%N, handles w + 2 * i)) chunks /\
      timers w' = [] /\
      create_calls w' = create_calls w + length chunks /\
      handles w' = handles w + 2 * length chunks /\
      running_in w' = running_in w.
Proof.
  induction chunks as [|chunk chunks IH]; intros k w Hquiet.
  - exists w, []. simpl. unfold ret. rewrite app_nil_r.
    repeat split; try done; lia.
  - rewrite !imap_cons. simpl.
    destruct (scheduled_chunk_run limiter chunk (k + 0) w Hquiet)
      as (w1 & added1 & Hrun1 & Htrace1 & Hreq1 & Hlim1 & Htim1 & Hq1 & Hcalls1 & Hh1 & Hin1).
    rewrite Hrun1.
    destruct (IH (S k) w1 Hq1)
      as (w2 & added2 & Hrun2 & Htrace2 & Hreq2 & Hlim2 & Htim2 & Hq2 & Hcalls2 & Hh2 & Hin2).
    erewrite (imap_ext _ (fun i chunk =>
                limiter_schedule limiter (embedChunk env userId file chunk (S k + i))));
      [|intros i x _; simpl; by rewrite Nat.add_succ_r].
    rewrite Hrun2.
    exists w2, (added1 ++ added2). split.
    { rewrite !Nat.add_0_r. do 3 f_equal.
      apply imap_ext. intros i x _. simpl.
      rewrite Hcalls1. f_equal; lia. }
    split. { by rewrite Htrace2, Htrace1, app_assoc. }
    split.
    { rewrite requests_app, Hreq1, Hreq2. simpl. f_equal.
      apply imap_ext. intros i x _. unfold chunk_request. simpl.
      rewrite Hh1. do 2 f_equal. lia. }
    split. { by rewrite limiters_app, Hlim1, Hlim2. }
    split.
    { rewrite timeouts_app, Htim1, Htim2. simpl. rewrite Nat.add_0_r. f_equal.
      apply imap_ext. intros i x _. simpl. rewrite Hh1.
      f_equal; [f_equal|]; lia. }
    split; [exact Hq2|].
    split; [rewrite Hcalls2, Hcalls1; lia|].
    split; [rewrite Hh2, Hh1; lia|].
    by rewrite Hin2.
Qed.

End Batch.

Section BatchRun.

Variable env : Env.
Variable userId : JsString.
Variable file : KnowledgebaseFile.
Variable chunks : list ParsedElement.

(** The whole of a batch that is set up without fault: what it returns, and
    its trace -- the limiter, the jobs, the failure lines of the loop, the
    closing lines. *)
Lemma embedDocument_run w :
  timers w = [] ->
  setup_fault env = None ->
  exists w' jobs duration,
    embedDocument env userId file chunks w
      = (w', inr (successes (batch_results env userId file chunks w))) /\
    trace w'
      = trace w
          ++ [ENewLimiter (handles w) limiter_options;
              EProgressStart (length chunks);
              ELog Info (lit "Starting embedding process for document: "
                           ++ tpl (file_name file))]
          ++ jobs
          ++ failure_lines 0 (batch_results env userId file chunks w)
          ++ [ELog Info (lit "Successfully embedded chunks for document: "
                           ++ tpl (file_name file));
              ELog Info (lit "Embedding document for file: " ++ tpl (file_name file)
                           ++ lit " took " ++ decN duration ++ lit " ms");
              EProgressStop] /\
    requests jobs = imap (chunk_request env (handles w) (S (handles w))) chunks /\
    limiters jobs = [] /\
    timeouts jobs
      = imap (fun i _ => (S (S (handles w) + 2 * i), 15000%N, S (handles w) + 2 * i)) chunks /\
    timers w' = [] /\
    create_calls w' = create_calls w + length chunks /\
    handles w' = S (handles w) + 2 * length chunks /\
    running_in w' = running_in w.
Proof.
  intros Hquiet Hok.
  unfold embedDocument, bind, try_finally, try_catch, Date_now, new_Bottleneck,
    modify, logger_info, schedule_chunks, ret.
  rewrite Hok. simpl.
  set (w0 := emit _ (emit _ (count_handle (emit _ w)))).
  destruct (scheduled_chunks_run env userId file (handles w) chunks 0 w0)
    as (w1 & jobs & Hrun & Htrace & Hreq & Hlim & Htim & Hq & Hcalls & Hh & Hin);
    [exact Hquiet|].
  simpl in Hrun. rewrite Hrun. simpl.
  rewrite process_results_run. simpl.
  eexists _, jobs, _. split; [reflexivity|]. simpl.
  rewrite Htrace. subst w0. simpl.
  rewrite <- !app_assoc. simpl.
  repeat split; try assumption.
Qed.

(** When setting the batch up throws, [embedDocument] logs and rethrows. *)
Lemma embedDocument_setup_fault w error :
  setup_fault env = Some error ->
  outcome (embedDocument env userId file chunks w) = inl error.
Proof.
  intros Hfault.
  unfold embedDocument, bind, try_finally, try_catch, Date_now, new_Bottleneck,
    modify, logger_info, logger_error, schedule_chunks, throw, ret, outcome.
  rewrite Hfault. simpl. reflexivity.
Qed.

End BatchRun.

(** C3.  In a batch of N chunks, whichever of the chunk embedding calls fail
    (the provider rejects the request, the request is aborted after 15 s, or
    the chunk cannot be assembled), [embedDocument] returns exactly the
    embeddings of the chunks that succeeded, N minus the number of failures
    of them; its loop logs one line per failure, with the 1-based index of
    the chunk and the message of the reason; and it throws only when setting
    the batch up threw.  [settled] holds, per chunk, what its call of
    [embedChunk] settles with. *)
Theorem embedDocument_partial_failure env userId file chunks w :
  timers w = [] ->
  let settled := batch_results env userId file chunks w in
  let run := embedDocument env userId file chunks w in
  length settled = length chunks /\
  (forall i chunk wi,
      chunks !! i = Some chunk ->
      timers wi = [] ->
      create_calls wi = create_calls w + i ->
      settled !! i = Some (outcome (embedChunk env userId file chunk i wi))) /\
  (setup_fault env = None ->
     outcome run = inr (successes settled) /\
     length (successes settled) = length chunks - length (failures settled) /\
     (exists before closing,
         trace (after run) = before ++ failure_lines 0 settled ++ closing /\
         Forall (fun e => exists text, e = ELog Info text \/ e = EProgressStop) closing) /\
     length (failure_lines 0 settled) = length (failures settled) /\
     (forall i reason,
         settled !! i = Some (inl reason) ->
         ELog Error (lit "Embedding failed for chunk " ++ dec (i + 1) ++ lit ": "
                       ++ err_message reason) ∈ trace (after run))) /\
  (forall error, outcome run = inl error <-> setup_fault env = Some error).
Proof.
  intros Hquiet settled run.
  split. { unfold settled, batch_results. apply length_imap. }
  split.
  { intros i chunk wi Hchunk Hqi Hcalls.
    unfold settled, batch_results. rewrite list_lookup_imap, Hchunk. simpl.
    destruct (embedChunk_run env userId file chunk i wi Hqi) as (w' & added & Hrun & _).
    rewrite Hrun, Hcalls. reflexivity. }
  split.
  - intros Hok.
    destruct (embedDocument_run env userId file chunks w Hquiet Hok)
      as (w' & jobs & duration & Hrun & Htrace & _).
    subst run. rewrite Hrun. unfold outcome, after. simpl. fold settled in Htrace |- *.
    split; [reflexivity|].
    split.
    { pose proof (successes_length settled) as Hlen.
      unfold settled at 3 in Hlen. unfold batch_results in Hlen.
      rewrite length_imap in Hlen. lia. }
    split.
    { eexists (trace w ++ [_; _; _] ++ jobs), [_; _; _]. split.
      { rewrite Htrace. rewrite <- !app_assoc. reflexivity. }
      constructor; [eexists; left; reflexivity|].
      constructor; [eexists; left; reflexivity|].
      constructor; [exists []; right; reflexivity|].
      constructor. }
    split; [apply failure_lines_length|].
    intros i reason Hi. rewrite Htrace.
    apply (failure_lines_lookup 0) in Hi. simpl in Hi.
    rewrite !elem_of_app. right. right. right. left. exact Hi.
  - intros error. split.
    + intros Hthrown. destruct (setup_fault env) as [e|] eqn:Hfault.
      * pose proof (embedDocument_setup_fault env userId file chunks w e Hfault) as He.
        subst run. congruence.
      * destruct (embedDocument_run env userId file chunks w Hquiet Hfault)
          as (w' & jobs & duration & Hrun & _).
        subst run. rewrite Hrun in Hthrown. discriminate.
    + apply embedDocument_setup_fault.
Qed.

(** The batch of ten chunks whose chunks 3 and 7 time out: eight embeddings,
    two failure lines. *)
Lemma embedDocument_partial_failure_witness :
  let settled := batch_results slow_env (lit "u1") sample_file ten_chunks boot in
  outcome (embedDocument slow_env (lit "u1") sample_file ten_chunks boot)
    = inr (successes settled) /\
  length (successes settled) = 8 /\
  length (failure_lines 0 settled) = 2.
Proof.
  destruct (embedDocument_partial_failure slow_env (lit "u1") sample_file ten_chunks boot
              eq_refl) as (_ & _ & Hok & _).
  destruct (Hok eq_refl) as (Hout & _ & _ & _ & _).
  split; [exact Hout|]. split; vm_compute; reflexivity.
Defined.

(** ** Ids *)

Lemma embedChunk_result_id env userId file n index chunk e :
  embedChunk_result env userId file n index chunk = inr e ->
  exists name,
    file_name file = Some name /\
    emb_id e = toAscii name ++ lit "#" ++ file_key file ++ lit "#" ++ dec (index + 1).
Proof.
  unfold embedChunk_result.
  destruct (15000 <=? _)%N; [discriminate|].
  destruct (response _); [discriminate|].
  destruct (file_name file) as [name|]; [|discriminate].
  intros [= <-]. by exists name.
Qed.

Lemma batch_results_lookup env userId file chunks w i r :
  batch_results env userId file chunks w !! i = Some r ->
  exists chunk,
    chunks !! i = Some chunk /\
    r = embedChunk_result env userId file (create_calls w + i) i chunk.
Proof.
  unfold batch_results. rewrite list_lookup_imap.
  destruct (chunks !! i) as [chunk|]; simpl; [|discriminate].
  intros [= <-]. by exists chunk.
Qed.

(** Two lists of results fulfilled at the same positions, with the same id
    wherever both are fulfilled, yield the same ids. *)
Lemma successes_same_ids (settled1 settled2 : list (JsError + Embedding)) :
  fulfilled settled1 = fulfilled settled2 ->
  (forall i e1 e2,
      settled1 !! i = Some (inr e1) -> settled2 !! i = Some (inr e2) ->
      emb_id e1 = emb_id e2) ->
  map emb_id (successes settled1) = map emb_id (successes settled2).
Proof.
  revert settled2.
  induction settled1 as [|r1 settled1 IH]; intros [|r2 settled2] Hsame Hids;
    try discriminate; [reflexivity|].
  injection Hsame as Hhead Htail.
  assert (map emb_id (successes settled1) = map emb_id (successes settled2)) as Hrest.
  { apply IH; [exact Htail|]. intros i e1 e2 H1 H2. exact (Hids (S i) e1 e2 H1 H2). }
  destruct r1 as [x1|e1], r2 as [x2|e2]; try discriminate; unfold successes in *; simpl.
  - exact Hrest.
  - f_equal; [|exact Hrest]. by apply (Hids 0).
Qed.

(** A run that returns was set up without fault. *)
Lemma embedDocument_returns env userId file chunks w embeddings :
  timers w = [] ->
  outcome (embedDocument env userId file chunks w) = inr embeddings ->
  embeddings = successes (batch_results env userId file chunks w).
Proof.
  intros Hquiet Hout.
  destruct (setup_fault env) as [e|] eqn:Hfault.
  - rewrite (embedDocument_setup_fault env userId file chunks w e Hfault) in Hout.
    discriminate.
  - destruct (embedDocument_run env userId file chunks w Hquiet Hfault)
      as (w' & jobs & duration & Hrun & _).
    rewrite Hrun in Hout. unfold outcome in Hout. simpl in Hout. congruence.
Qed.

(** C4 (as amended).  Every chunk [embedDocument] embeds gets the id
    [toAscii(file.name) # file.key # (position + 1)]; hence in two runs over
    the same file name, key and chunks, a chunk embedded in both has the
    same id in both, and when the same chunks are embedded the two runs
    return the same ids. *)
Theorem embedDocument_ids env1 env2 userId1 userId2 file1 file2 chunks w1 w2
    embeddings1 embeddings2 :
  timers w1 = [] ->
  timers w2 = [] ->
  file_name file1 = file_name file2 ->
  file_key file1 = file_key file2 ->
  outcome (embedDocument env1 userId1 file1 chunks w1) = inr embeddings1 ->
  outcome (embedDocument env2 userId2 file2 chunks w2) = inr embeddings2 ->
  let settled1 := batch_results env1 userId1 file1 chunks w1 in
  let settled2 := batch_results env2 userId2 file2 chunks w2 in
  embeddings1 = successes settled1 /\
  embeddings2 = successes settled2 /\
  (forall i e,
      settled1 !! i = Some (inr e) ->
      exists name,
        file_name file1 = Some name /\
        emb_id e = toAscii name ++ lit "#" ++ file_key file1 ++ lit "#" ++ dec (i + 1)) /\
  (forall e,
      e ∈ embeddings1 ->
      exists i name,
        i < length chunks /\
        file_name file1 = Some name /\
        emb_id e = toAscii name ++ lit "#" ++ file_key file1 ++ lit "#" ++ dec (i + 1)) /\
  (forall i e1 e2,
      settled1 !! i = Some (inr e1) -> settled2 !! i = Some (inr e2) ->
      emb_id e1 = emb_id e2) /\
  (fulfilled settled1 = fulfilled settled2 ->
   map emb_id embeddings1 = map emb_id embeddings2).
Proof.
  intros Hq1 Hq2 Hname Hkey Hout1 Hout2 settled1 settled2.
  assert (forall i e,
             settled1 !! i = Some (inr e) ->
             exists name,
               file_name file1 = Some name /\
               emb_id e = toAscii name ++ lit "#" ++ file_key file1 ++ lit "#" ++ dec (i + 1))
    as Hid1.
  { intros i e Hi. apply batch_results_lookup in Hi as (chunk & _ & Hr).
    symmetry in Hr. by apply embedChunk_result_id in Hr. }
  assert (forall i e1 e2,
             settled1 !! i = Some (inr e1) -> settled2 !! i = Some (inr e2) ->
             emb_id e1 = emb_id e2) as Hboth.
  { intros i e1 e2 H1 H2.
    apply Hid1 in H1 as (name1 & Hn1 & ->).
    apply batch_results_lookup in H2 as (chunk & _ & Hr).
    symmetry in Hr. apply embedChunk_result_id in Hr as (name2 & Hn2 & ->).
    rewrite <- Hkey. rewrite <- Hname in Hn2. congruence. }
  apply embedDocument_returns in Hout1; [|exact Hq1].
  apply embedDocument_returns in Hout2; [|exact Hq2].
  repeat split; try assumption.
  - intros e He. rewrite Hout1 in He.
    apply list_elem_of_omap in He as (r & Hr & Hsome).
    destruct r as [reason|e']; [discriminate|]. injection Hsome as ->.
    apply list_elem_of_lookup in Hr as [i Hi].
    destruct (Hid1 i e Hi) as (name & Hname1 & Hide).
    exists i, name. split; [|by split].
    apply lookup_lt_Some in Hi. unfold settled1, batch_results in Hi.
    by rewrite length_imap in Hi.
  - intros Hsame. rewrite Hout1, Hout2. by apply successes_same_ids.
Qed.

(** C4, as stated, fails: the same file and chunks, embedded once with a
    provider that answers in time and once with a provider that is slow on
    the second chunk, give different id sets. *)
Lemma embedDocument_ids_differ :
  let ids1 := ids_of (embedDocument healthy_env (lit "u1") sample_file three_chunks boot) in
  let ids2 := ids_of (embedDocument slow_second_env (lit "u1") sample_file three_chunks boot) in
  lit "refund-policy.pdf#k81#2" ∈ ids1 /\ lit "refund-policy.pdf#k81#2" ∉ ids2.
Proof.
  split.
  - apply (bool_decide_unpack _). vm_compute. exact I.
  - apply (bool_decide_unpack _). vm_compute. exact I.
Qed.

Lemma embedDocument_ids_witness :
  map emb_id (successes (batch_results healthy_env (lit "u1") sample_file three_chunks boot))
  = map emb_id (successes (batch_results healthy_env (lit "u2") sample_file three_chunks boot)).
Proof.
  pose proof (embedDocument_ids healthy_env healthy_env (lit "u1") (lit "u2")
                sample_file sample_file three_chunks boot boot _ _
                eq_refl eq_refl eq_refl eq_refl eq_refl eq_refl)
    as (H1 & H2 & _ & _ & _ & Hsame).
  apply Hsame. vm_compute. reflexivity.
Defined.

(** ** The limiter *)

Lemma failure_lines_requests {A} i (settled : list (JsError + A)) :
  requests (failure_lines i settled) = [] /\ limiters (failure_lines i settled) = [].
Proof.
  revert i. induction settled as [|[e|a] settled IH]; intros i; simpl; [done| |];
    unfold requests, limiters in *; simpl; apply IH.
Qed.

(** C8 (as amended).  Every provider request of one [embedDocument]
    invocation -- one per chunk -- is made under the limiter this invocation
    creates, configured with a reservoir of 5000 permits refilled to 5000
    every 60 000 ms, at least 12 ms between dispatches and at most 50 calls
    in flight; the invocation creates this one limiter and no other, under a
    handle no later invocation gets again. *)
Theorem embedDocument_rate_limited env userId file chunks w :
  timers w = [] ->
  setup_fault env = None ->
  let run := embedDocument env userId file chunks w in
  exists added,
    trace (after run) = trace w ++ added /\
    limiters added
      = [(handles w,
          {| reservoir := 5000; reservoirRefreshAmount := 5000;
             reservoirRefreshInterval := 60000; minTime := 12; maxConcurrent := 50 |})] /\
    length (requests added) = length chunks /\
    Forall (fun r => via_limiter r = Some (handles w)) (requests added) /\
    handles w < handles (after run).
Proof.
  intros Hquiet Hok run.
  destruct (embedDocument_run env userId file chunks w Hquiet Hok)
    as (w' & jobs & duration & Hrun & Htrace & Hreq & Hlim & _ & _ & _ & Hh & _).
  subst run. rewrite Hrun. unfold after. simpl.
  eexists. split; [exact Htrace|].
  destruct (failure_lines_requests 0 (batch_results env userId file chunks w)) as [Hfr Hfl].
  split.
  { rewrite !limiters_app, Hlim, Hfl. reflexivity. }
  assert (requests
            ([ENewLimiter (handles w) limiter_options; EProgressStart (length chunks);
              ELog Info (lit "Starting embedding process for document: "
                           ++ tpl (file_name file))]
               ++ jobs ++ failure_lines 0 (batch_results env userId file chunks w)
               ++ [ELog Info (lit "Successfully embedded chunks for document: "
                                ++ tpl (file_name file));
                   ELog Info (lit "Embedding document for file: " ++ tpl (file_name file)
                                ++ lit " took " ++ decN duration ++ lit " ms");
                   EProgressStop])
          = imap (chunk_request env (handles w) (S (handles w))) chunks) as ->.
  { rewrite !requests_app, Hreq, Hfr. simpl. by rewrite app_nil_r. }
  split; [apply length_imap|].
  split; [|lia].
  apply Forall_forall. intros r Hr.
  apply elem_of_lookup_imap in Hr as (i & chunk & -> & _). reflexivity.
Qed.

(** C8, as stated, fails: two documents embedded one after the other send
    their requests through two different limiters; no limiter is shared. *)
Lemma batches_use_separate_limiters :
  ~ exists limiter,
      Forall (fun r => via_limiter r = Some limiter)
        (requests (trace (after (two_batches boot)))).
Proof.
  intros [limiter Hall].
  assert (map via_limiter (requests (trace (after (two_batches boot)))) = [Some 0; Some 3])
    as Hgates by (vm_compute; reflexivity).
  destruct (requests (trace (after (two_batches boot)))) as [|r1 [|r2 rest]];
    try discriminate.
  injection Hgates as Hg1 Hg2 _.
  apply Forall_cons in Hall as [H1 Hall].
  apply Forall_cons in Hall as [H2 _].
  congruence.
Qed.

Lemma embedDocument_rate_limited_witness :
  exists added,
    trace (after (embedDocument slow_env (lit "u1") sample_file ten_chunks boot)) = added /\
    length (requests added) = 10 /\
    Forall (fun r => via_limiter r = Some 0) (requests added).
Proof.
  destruct (embedDocument_rate_limited slow_env (lit "u1") sample_file ten_chunks boot
              eq_refl eq_refl) as (added & Htrace & _ & Hlen & Hall & _).
  exists added. repeat split; assumption.
Defined.

(** ** One message *)

Section Message.

Variable env : Env.
Variables userId content : JsString.

(** [embedMessage] makes one request, under no limiter and with no signal;
    it arms no timeout and waits for the answer, however late. *)
Lemma embedMessage_run w :
  let reply :=
    embeddings_reply env (create_calls w) (embeddingApiModel env)
      (messageToEmbed env (clock w) userId content) in
  exists w' added,
    embedMessage env userId content w
      = (w', match response reply with
             | inl error => inl error
             | inr embeddingValues =>
                 inr {| emb_id := uuidv4 env (uuid_draws w);
                        emb_values := embeddingValues;
                        emb_metadata := None |}
             end) /\
    trace w' = trace w ++ added /\
    requests added = [ {| req_model := embeddingApiModel env;
                          req_input := messageToEmbed env (clock w) userId content;
                          req_signal := None;
                          via_limiter := running_in w |} ] /\
    timeouts added = [] /\
    limiters added = [] /\
    clock w' = (clock w + latency reply)%N /\
    uuid_draws w' <= S (uuid_draws w) /\
    (forall e, response reply = inr e -> uuid_draws w' = S (uuid_draws w)).
Proof.
  intros reply.
  unfold embedMessage, bind, try_finally, try_catch, Date_now, logger_info,
    logger_error, modify, embeddings_create, draw_uuid, throw, ret, chalk.
  simpl. fold (messageToEmbed env (clock w) userId content). fold reply.
  destruct (response reply) as [error|embeddingValues]; simpl.
  - eexists _, _. split; [reflexivity|]. simpl.
    rewrite <- !app_assoc. split; [reflexivity|].
    repeat split; simpl; try reflexivity; try lia. discriminate.
  - eexists _, _. split; [reflexivity|]. simpl.
    rewrite <- !app_assoc. split; [reflexivity|].
    repeat split; simpl; try reflexivity; try lia.
Qed.

Lemma messageToEmbed_longer now : length content < length (messageToEmbed env now userId content).
Proof.
  unfold messageToEmbed. rewrite !length_app.
  assert (length (lit "Date: ") = 6) as -> by (vm_compute; reflexivity).
  lia.
Qed.

End Message.

(** C10.  A call of [embedMessage] that succeeds returns the next identifier
    of [uuidv4] and the vector of the provider, with no metadata; the text it
    sent to the provider is the date, the user id and the message put
    together, not the message alone; and, [uuidv4] never handing out an
    identifier twice, a later successful call -- be it with the same user id
    and message -- returns another id. *)
Theorem embedMessage_fresh_id env userId content w1 w2 e1 e2 :
  (forall i j, i <> j -> uuidv4 env i <> uuidv4 env j) ->
  outcome (embedMessage env userId content w1) = inr e1 ->
  uuid_draws (after (embedMessage env userId content w1)) <= uuid_draws w2 ->
  outcome (embedMessage env userId content w2) = inr e2 ->
  let sent := lit "Date: " ++ toLocaleString env (clock w1) ++ lit ". User: " ++ userId
                ++ lit ". Message: " ++ content ++ lit ". Metadata: " ++ lit "" in
  emb_metadata e1 = None /\
  emb_id e1 = uuidv4 env (uuid_draws w1) /\
  response (embeddings_reply env (create_calls w1) (embeddingApiModel env) sent)
    = inr (emb_values e1) /\
  emb_id e1 <> emb_id e2 /\
  ECreate {| req_model := embeddingApiModel env; req_input := sent;
             req_signal := None; via_limiter := running_in w1 |}
    ∈ trace (after (embedMessage env userId content w1)) /\
  sent <> content.
Proof.
  intros Hfresh Hout1 Hlater Hout2 sent.
  destruct (embedMessage_run env userId content w1)
    as (w1' & added1 & Hrun1 & Htrace1 & Hreq1 & _ & _ & _ & _ & Hdraw1).
  destruct (embedMessage_run env userId content w2)
    as (w2' & added2 & Hrun2 & _).
  fold (messageToEmbed env (clock w1) userId content) in sent.
  rewrite Hrun1 in Hout1, Hlater. rewrite Hrun2 in Hout2.
  unfold outcome, after in *. simpl in *.
  fold sent in Hout1, Hdraw1, Hreq1.
  destruct (response (embeddings_reply env (create_calls w1) (embeddingApiModel env) sent))
    as [error1|values1] eqn:Hreply1; [discriminate|].
  destruct (response (embeddings_reply env (create_calls w2) (embeddingApiModel env)
                        (messageToEmbed env (clock w2) userId content)))
    as [error2|values2]; [discriminate|].
  injection Hout1 as <-. injection Hout2 as <-. simpl.
  rewrite (Hdraw1 values1 eq_refl) in Hlater.
  repeat split.
  - apply Hfresh. lia.
  - rewrite Hrun1. simpl. rewrite Htrace1. apply elem_of_app. right.
    assert (forall (es : list Effect) r, requests es = [r] -> ECreate r ∈ es) as Hsingle.
    { clear. induction es as [|e es IH]; intros r; [discriminate|].
      unfold requests in *. destruct e; simpl; try (intros H; right; by apply IH).
      intros [= -> _]. left. }
    by apply Hsingle.
  - intros Heq. pose proof (messageToEmbed_longer env userId content (clock w1)) as Hlen.
    unfold sent in Heq. rewrite Heq in Hlen. lia.
Qed.

Lemma sample_uuid_fresh i j : i <> j -> sample_uuid i <> sample_uuid j.
Proof.
  intros Hij Heq. unfold sample_uuid in Heq.
  apply app_inv_head in Heq. by apply dec_inj in Heq.
Qed.

Lemma embedMessage_fresh_id_witness :
  uuidv4 healthy_env 0 <> uuidv4 healthy_env 1.
Proof.
  pose proof (embedMessage_fresh_id healthy_env (lit "u1") (lit "What is the refund policy?")
                boot (after (embedMessage healthy_env (lit "u1")
                               (lit "What is the refund policy?") boot))
                _ _ sample_uuid_fresh eq_refl (le_n _) eq_refl)
    as (_ & _ & _ & Hdiffer & _).
  exact Hdiffer.
Defined.

(** C9.  [embedMessage] arms no timeout: with a provider that answers after
    20 s it waits the 20 s and returns the embedding, its request carrying
    no signal; [embedChunk], given the same answer, aborts its request after
    15 s and rejects. *)
Theorem embedMessage_outlives_timeout :
  let run := embedMessage slow_first_env (lit "u1") (lit "What is the refund policy?") boot in
  let chunk_run := embedChunk slow_first_env (lit "u1") sample_file (sample_chunk "c1") 0 boot in
  outcome run
    = inr {| emb_id := sample_uuid 0; emb_values := sample_vector; emb_metadata := None |} /\
  clock (after run) = 20000%N /\
  timeouts (trace (after run)) = [] /\
  map req_signal (requests (trace (after run))) = [None] /\
  outcome chunk_run = inl AbortError /\
  clock (after chunk_run) = 15000%N /\
  timeouts (trace (after chunk_run)) = [(1, 15000%N, 0)] /\
  map req_signal (requests (trace (after chunk_run))) = [Some 0].
Proof. vm_compute. repeat split. Qed.

(** ** The vector store *)

(** C7.  Every call of the similarity query of the Qdrant provider throws
    the error "query function is not implemented"; none returns a result,
    empty or not. *)
Theorem query_not_implemented userId embeddings topK w :
  outcome (query userId embeddings topK w)
    = inl (new_Error (lit "query function is not implemented")) /\
  (forall result, outcome (query userId embeddings topK w) <> inr result).
Proof.
  assert (outcome (query userId embeddings topK w)
          = inl (new_Error (lit "query function is not implemented"))) as Hthrows
    by reflexivity.
  split; [exact Hthrows|]. intros result. rewrite Hthrows. discriminate.
Qed.

(** X2.  A delete call with neither a name nor a url (absent or empty) throws
    "No filename or URL provided for deletion." and sends no request to the
    store. *)
Theorem deleteFromVectorDb_requires_identifier env userId file w :
  truthy_str (file_name file) = false ->
  truthy_str (file_url file) = false ->
  let run := deleteFromVectorDb env userId file w in
  outcome run = inl (new_Error (lit "No filename or URL provided for deletion.")) /\
  deletions (trace (after run)) = deletions (trace w).
Proof.
  intros Hname Hurl.
  unfold deleteFromVectorDb, bind, try_catch, logger_info, logger_error, modify,
    qdrant_delete, throw, ret, outcome, after.
  rewrite Hname, Hurl. simpl. split; [reflexivity|].
  rewrite !deletions_app. simpl. by rewrite !app_nil_r.
Qed.

Lemma truthy_str_lit a s : truthy_str (Some (lit (String a s))) = true.
Proof. reflexivity. Qed.

Lemma deleteFromVectorDb_requires_identifier_witness :
  outcome (deleteFromVectorDb healthy_env (lit "u1")
             {| file_name := None; file_key := lit "k81"; file_url := Some (lit "") |} boot)
  = inl (new_Error (lit "No filename or URL provided for deletion.")).
Proof.
  exact (proj1 (deleteFromVectorDb_requires_identifier healthy_env (lit "u1")
                  {| file_name := None; file_key := lit "k81"; file_url := Some (lit "") |}
                  boot eq_refl eq_refl)).
Defined.

(** C5.  A delete call with a name and no url sends one request whose
    filter holds both conditions, the one on the url without a value; that
    filter does not select the point of the document, which stays in the
    collection. *)
Theorem deleteFromVectorDb_name_only env userId w :
  let run := deleteFromVectorDb env userId name_only_file w in
  exists added must,
    trace (after run) = trace w ++ added /\
    deletions added = [(qdrant_collection env, must)] /\
    must = [ {| cond_key := lit "name"; cond_value := Some (lit "refund-policy.pdf") |};
             {| cond_key := lit "url"; cond_value := None |} ] /\
    selected must sample_payload = false /\
    remaining must [sample_payload] = [sample_payload].
Proof.
  unfold deleteFromVectorDb, delete_filter, bind, try_catch, logger_info, logger_error,
    modify, qdrant_delete, throw, ret, outcome, after.
  change (file_name name_only_file) with (Some (lit "refund-policy.pdf")).
  change (file_url name_only_file) with (@None JsString).
  rewrite truthy_str_lit. simpl.
  destruct (client_delete env _ _) as [error|[]]; simpl;
    eexists _, _; (split; [rewrite <- ?app_assoc; reflexivity|]);
    (split; [reflexivity|]); (split; [reflexivity|]); split; vm_compute; reflexivity.
Qed.

(** ** Metadata *)

(** C6.  The metadata of a chunk whose keys are distinct is flattened key by
    key: an object value becomes the array of its [key:JSON] strings, any
    other value stays as it is; and every value of the metadata attached to
    the embedding is flat -- a primitive or an array of strings -- the
    flattened entries being kept under every key but the four the embedding
    sets itself. *)
Theorem chunk_metadata_flat env userId file chunk index w e :
  NoDup (keys (chunk_metadata chunk)) ->
  outcome (embedChunk env userId file chunk index w) = inr e ->
  let source := chunk_metadata chunk in
  let flattened := transformObjectValues env source in
  keys flattened = keys source /\
  (forall key value,
      obj_get source key = Some value ->
      obj_get flattened key
        = Some (if is_object value
                then JArr (map (fun '(k, v) => JStr (k ++ lit ":" ++ JSON_stringify env v))
                             (Object_entries value))
                else value)) /\
  exists metadata,
    emb_metadata e = Some metadata /\
    (forall key value, obj_get metadata key = Some value -> flat value = true) /\
    (forall key,
        key ∉ [lit "text"; lit "userId"; lit "url"; lit "citation"] ->
        obj_get metadata key = obj_get flattened key).
Proof.
  intros Hnd Hout source flattened.
  assert (flattened = map (fun kv => (kv.1, transformed env kv.2)) source) as Hmap
    by (by apply transformObjectValues_map).
  split.
  { rewrite Hmap. unfold keys. rewrite <- list_fmap_compose.
    apply list_fmap_ext. by intros i [k v] _. }
  split.
  { intros key value Hget. rewrite Hmap, obj_get_map_transformed, Hget. reflexivity. }
  apply embedChunk_fulfilled in Hout as (name & embeddingValues & _ & ->). simpl.
  eexists. split; [reflexivity|]. split.
  - intros key value Hget%obj_get_Some_elem.
    pose proof (chunk_metadata_of_values
                  (transformObjectValues env (chunk_metadata chunk)) (chunk_text chunk)
                  userId (file_url file)
                  (lit "[" ++ name ++ pageInfo_of env (chunk_metadata chunk)
                     ++ lit "](" ++ tpl (file_url file) ++ lit ")")
                  (transformObjectValues_values env (chunk_metadata chunk))) as Hflat.
    rewrite Forall_forall in Hflat. exact (Hflat _ Hget).
  - intros key Hkey. unfold chunk_metadata_of.
    rewrite !obj_get_set.
    repeat (rewrite bool_decide_eq_false_2;
            [|intros <-; apply Hkey; repeat (first [left | right])]).
    reflexivity.
Qed.

Lemma chunk_metadata_flat_witness :
  exists metadata,
    emb_metadata
      {| emb_id := chunk_id (lit "refund-policy.pdf") (lit "k81") 0;
         emb_values := sample_vector;
         emb_metadata :=
           Some (chunk_metadata_of
                   (transformObjectValues healthy_env (chunk_metadata (sample_chunk "c1")))
                   (lit "c1") (lit "u1") (Some (lit "https://utfs.io/f/k81"))
                   (lit "[refund-policy.pdf, Page 4](https://utfs.io/f/k81)")) |}
      = Some metadata /\
    obj_get metadata (lit "languages") = Some (JArr [JStr (lit "0:" ++ quoted (lit "eng"))]).
Proof.
  assert (NoDup (keys (chunk_metadata (sample_chunk "c1")))) as Hnd
    by (apply (bool_decide_unpack _); vm_compute; exact I).
  destruct (chunk_metadata_flat healthy_env (lit "u1") sample_file (sample_chunk "c1") 0 boot
              _ Hnd eq_refl) as (_ & Hget & metadata & Hmeta & _ & Hkept).
  exists metadata. split; [exact Hmeta|].
  rewrite Hkept.
  - rewrite (Hget (lit "languages") (JArr [JStr (lit "eng")])) by (vm_compute; reflexivity).
    vm_compute. reflexivity.
  - apply (bool_decide_unpack _). vm_compute. exact I.
Defined.

(** The points [upsertDocument] writes carry [embeddingId] and [metadata]
    in their payload, and neither [name] nor [url]. *)
Lemma to_points_payloads env embeddings w :
  exists w' points,
    to_points env embeddings w = (w', inr points) /\
    trace w' = trace w /\
    Forall (fun point =>
              obj_get (payload point) (lit "name") = None /\
              obj_get (payload point) (lit "url") = None)
      points.
Proof.
  revert w. induction embeddings as [|embedding rest IH]; intros w; simpl.
  - exists w, []. repeat split. constructor.
  - unfold bind, draw_uuid, ret. simpl.
    destruct (IH (count_uuid w)) as (w' & points & Hrun & Htrace & Hall).
    rewrite Hrun. eexists _, _. split; [reflexivity|]. split; [exact Htrace|].
    constructor; [|exact Hall]. split; vm_compute; reflexivity.
Qed.

(** X6.  No point written by [upsertDocument] is selected by the filter of a
    delete call, whatever name and url the call carries: the filter asks for
    the payload keys [name] and [url], which no upserted point has. *)
Theorem upserted_points_survive_delete env userId embeddings w name url :
  let run := upsertDocument env userId embeddings w in
  exists added,
    trace (after run) = trace w ++ added /\
    remaining (delete_filter name url) (upserted added) = upserted added.
Proof.
  unfold upsertDocument, bind, try_catch, logger_info, logger_error, modify,
    qdrant_upsert, throw, ret, after, chalk. simpl.
  destruct (to_points_payloads env embeddings
              (emit (ELog Info (lit "Starting upsert for user " ++ userId)) w))
    as (w1 & points & Hrun & Htrace & Hall).
  rewrite Hrun. simpl.
  assert (remaining (delete_filter name url) (map payload points) = map payload points)
    as Hkept.
  { assert (Forall (fun point =>
                        selected (delete_filter name url) (payload point) = false)
              points) as Hmissed.
    { eapply Forall_impl; [exact Hall|]. intros point [Hname _].
      unfold selected, delete_filter, satisfies. simpl. rewrite Hname.
      by destruct name. }
    unfold remaining. apply forallb_filter_id, forallb_forall.
    intros p (point & <- & Hin)%in_map_iff.
    rewrite Forall_forall in Hmissed.
    by rewrite (Hmissed point) by (by apply list_elem_of_In). }
  destruct (client_upsert env (qdrant_collection env) points) as [error|[]]; simpl;
    (eexists; split; [rewrite Htrace; simpl; rewrite <- ?app_assoc; reflexivity|]);
    unfold upserted; simpl; rewrite app_nil_r; exact Hkept.
Qed.

(** ** The retrieval orchestrator *)

Section RouteFacts.

Variable env : Env.
Variables userId message : JsString.
Variable settings : Settings.




End RouteFacts.



(** ** Timeouts *)

(** X3.  Every chunk request of a batch carries a controller of its own, with a
    timeout of 15 000 ms armed on it: no two requests share a signal. *)
Theorem embedDocument_timeouts env userId file chunks w :
  timers w = [] ->
  setup_fault env = None ->
  let run := embedDocument env userId file chunks w in
  exists added,
    trace (after run) = trace w ++ added /\
    map req_signal (requests added) = imap (fun i _ => Some (S (handles w) + 2 * i)) chunks /\
    timeouts added
      = imap (fun i _ => (S (S (handles w) + 2 * i), 15000%N, S (handles w) + 2 * i)) chunks /\
    NoDup (map req_signal (requests added)).
Proof.
  intros Hquiet Hok run.
  destruct (embedDocument_run env userId file chunks w Hquiet Hok)
    as (w' & jobs & duration & Hrun & Htrace & Hreq & _ & Htim & _).
  subst run. rewrite Hrun. unfold after. simpl.
  eexists. split; [exact Htrace|].
  destruct (failure_lines_requests 0 (batch_results env userId file chunks w)) as [Hfr _].
  assert (forall {A} i (settled : list (JsError + A)), timeouts (failure_lines i settled) = [])
    as Hft.
  { clear. intros A i settled. revert i.
    induction settled as [|[e|a] settled IH]; intros i; simpl; [done| |];
      unfold timeouts in *; simpl; apply IH. }
  assert (map req_signal (imap (chunk_request env (handles w) (S (handles w))) chunks)
          = imap (fun i _ => Some (S (handles w) + 2 * i)) chunks) as Hsignals.
  { clear. generalize (S (handles w)) as c0. intros c0.
    change (map req_signal (imap (chunk_request env (handles w) c0) chunks))
      with (req_signal <$> imap (chunk_request env (handles w) c0) chunks).
    rewrite fmap_imap. apply imap_ext. reflexivity. }
  split.
  { rewrite !requests_app, Hreq, Hfr. simpl. rewrite app_nil_r. exact Hsignals. }
  split.
  { rewrite !timeouts_app, Htim, Hft. simpl. by rewrite app_nil_r. }
  rewrite !requests_app, Hreq, Hfr. simpl. rewrite app_nil_r, Hsignals.
  apply NoDup_alt. intros i j x Hi Hj.
  rewrite list_lookup_imap in Hi, Hj.
  destruct (chunks !! i); [|discriminate]. destruct (chunks !! j); [|discriminate].
  simpl in *. injection Hi as <-. injection Hj as Hj. lia.
Qed.

Lemma embedDocument_timeouts_witness :
  exists added,
    trace (after (embedDocument healthy_env (lit "u1") sample_file three_chunks boot)) = added /\
    timeouts added = [(2, 15000%N, 1); (4, 15000%N, 3); (6, 15000%N, 5)].
Proof.
  destruct (embedDocument_timeouts healthy_env (lit "u1") sample_file three_chunks boot
              eq_refl eq_refl) as (added & Htrace & _ & Htim & _).
  exists added. split; [exact Htrace | exact Htim].
Defined.

(** X4.  [embedMessage] puts no bound of its own on the call of the client:
    it sends its one request without a signal, arms no timeout and creates
    no limiter; it settles when that call settles -- the time that passes is
    the latency of the call -- and throws exactly when the call rejects,
    with its error. *)
Theorem embedMessage_waits_for_the_provider env userId content w :
  let run := embedMessage env userId content w in
  let reply :=
    embeddings_reply env (create_calls w) (embeddingApiModel env)
      (messageToEmbed env (clock w) userId content) in
  exists added,
    trace (after run) = trace w ++ added /\
    map req_signal (requests added) = [None] /\
    map via_limiter (requests added) = [running_in w] /\
    timeouts added = [] /\
    limiters added = [] /\
    clock (after run) = (clock w + latency reply)%N /\
    (forall error, outcome run = inl error <-> response reply = inl error).
Proof.
  intros run reply.
  destruct (embedMessage_run env userId content w)
    as (w' & added & Hrun & Htrace & Hreq & Htim & Hlim & Hclock & _).
  fold reply in Hrun, Hclock. subst run. rewrite Hrun. unfold after, outcome. simpl.
  exists added. split; [exact Htrace|].
  rewrite Hreq. repeat split; try assumption.
  - destruct (response reply); congruence.
  - intros ->. reflexivity.
Qed.

(** ** [toAscii] *)

(** X5.  [toAscii] returns the code units of its argument that are at most
    0x7F, in order: it keeps a code unit up to 0x7F and drops any other, and
    it does so unit by unit, the result for a string being the results for
    its parts put together.  Hence its result is ASCII and a part of the
    argument, in order; an ASCII string is left as it is; and applying it
    twice changes nothing more. *)
Theorem toAscii_normalizes (str : JsString) :
  (forall c, toAscii [c] = if (c <=? 127)%N then [c] else []) /\
  (forall rest, toAscii (str ++ rest) = toAscii str ++ toAscii rest) /\
  (forall c, (c <= 127)%N -> c ∈ str -> c ∈ toAscii str) /\
  Forall (fun c => (c <= 127)%N) (toAscii str) /\
  (Forall (fun c => (c <= 127)%N) str <-> toAscii str = str) /\
  toAscii (toAscii str) = toAscii str /\
  sublist (toAscii str) str.
Proof.
  assert (forall s, Forall (fun c => (c <= 127)%N) (toAscii s)) as Hascii.
  { intros s. apply Forall_forall. intros c Hc.
    apply list_elem_of_In, filter_In in Hc as [_ Hc]. by apply N.leb_le. }
  assert (forall s, Forall (fun c => (c <= 127)%N) s -> toAscii s = s) as Hfix.
  { intros s Hs. induction Hs as [|c s Hc Hs IH]; [reflexivity|].
    unfold toAscii in *. simpl. apply N.leb_le in Hc. by rewrite Hc, IH. }
  split.
  { intros c. unfold toAscii. simpl. by destruct (c <=? 127)%N. }
  split; [intros rest; apply List.filter_app|].
  split.
  { intros c Hc Hin. apply list_elem_of_In, filter_In.
    split; [by apply list_elem_of_In | by apply N.leb_le]. }
  split; [apply Hascii|].
  split; [split; [apply Hfix | intros <-; apply Hascii]|].
  split; [apply Hfix, Hascii|].
  induction str as [|c str IH]; simpl; [constructor|].
  unfold toAscii in *. simpl.
  destruct (c <=? 127)%N; [by apply sublist_skip | by apply sublist_cons].
Qed.

(** ** The request handler *)

Section HandlerFacts.

Variable env : Env.
Variable backend : Backend.

Ltac run_handler :=
  unfold GET, handleErrorResponse, stream_session, validateUser, try_catch, bind, call,
    route_logger, ret, throw, outcome, after; simpl.



(** X7.  A request without a user id or without a message (absent or empty)
    is answered 400 with the body [{ error: 'No userId or message provided' }];
    no collaborator is called and nothing is written to the stream. *)
Theorem GET_rejects_incomplete_request req w :
  truthy_str (param_userId req) = false \/ truthy_str (param_message req) = false ->
  let run := GET env backend req (open_session w) in
  outcome run
    = inr {| resp_status := 400;
             resp_headers := [];
             resp_body := Json (JObj [(lit "error",
                                       JStr (lit "No userId or message provided"))]) |} /\
  world (after run) = w /\
  stream (after run) = [].
Proof.
  intros Hmissing. run_handler.
  destruct (param_userId req) as [[|c u]|], (param_message req) as [[|d m]|];
    simpl in *; try done; destruct Hmissing; discriminate.
Qed.

(** X8.  A request with both parameters whose user cannot be validated gets
    no stream: when the user store hands back a document under another id the
    answer is 400 with the message "Invalid user"; when it hands back nothing
    the answer is 500; when the lookup throws, the answer is 400 for the
    messages "Invalid user" and "Invalid file IDs" and 500 for any other,
    with the message of the error, or "Internal server error" when that is
    empty, as body.  In each case nothing is written to the stream. *)
Theorem GET_answers_validation_failure req userId message w w1 :
  param_userId req = Some userId ->
  param_message req = Some message ->
  userId <> [] ->
  message <> [] ->
  let run := GET env backend req (open_session w) in
  let answer status text :=
    outcome run
      = inr {| resp_status := status; resp_headers := [];
               resp_body := Text (JSON_stringify env (JObj [(lit "message", JStr text)])) |}
    /\ stream (after run) = [] /\ world (after run) = w1 in
  (forall data,
      getUserData backend userId w = (w1, inr (Some data)) ->
      user_id data <> userId ->
      answer 400%N (lit "Invalid user")) /\
  (getUserData backend userId w = (w1, inr None) ->
   answer 500%N (lit "Cannot read properties of null (reading '_id')")) /\
  (forall error,
      getUserData backend userId w = (w1, inl error) ->
      answer (if bool_decide (err_message error = lit "Invalid user"
                              \/ err_message error = lit "Invalid file IDs")
              then 400%N else 500%N)
             (match err_message error with
              | [] => lit "Internal server error"
              | text => text
              end)).
Proof.
  intros Hu Hm Hune Hmne run answer. subst run answer.
  destruct userId as [|c u]; [done|]. destruct message as [|d m]; [done|].
  split; [|split].
  - intros data Hget Hother. run_handler. rewrite Hu, Hm. simpl. rewrite Hget. simpl.
    rewrite bool_decide_eq_false_2 by exact Hother. simpl.
    rewrite bool_decide_eq_true_2 by left. done.
  - intros Hget. run_handler. rewrite Hu, Hm. simpl. rewrite Hget. simpl.
    rewrite bool_decide_eq_false_2; [done|].
    intros Hin. apply (bool_decide_pack _) in Hin. vm_compute in Hin. exact Hin.
  - intros error Hget. run_handler. rewrite Hu, Hm. simpl. rewrite Hget. simpl.
    assert (bool_decide (err_message error ∈ [lit "Invalid user"; lit "Invalid file IDs"])
            = bool_decide (err_message error = lit "Invalid user"
                           \/ err_message error = lit "Invalid file IDs")) as ->.
    { apply bool_decide_ext. rewrite !elem_of_cons, elem_of_nil. tauto. }
    done.
Qed.


End HandlerFacts.

Lemma GET_rejects_incomplete_request_witness :
  exists response,
    outcome (GET healthy_env (sample_backend (lit "u1"))
               {| param_userId := Some (lit "u1"); param_message := Some [] |}
               (open_session boot)) = inr response /\
    resp_status response = 400%N.
Proof.
  eexists. split; [|shelve].
  exact (proj1 (GET_rejects_incomplete_request healthy_env (sample_backend (lit "u1"))
                  {| param_userId := Some (lit "u1"); param_message := Some [] |}
                  boot (or_intror eq_refl))).
  Unshelve. reflexivity.
Defined.

Lemma GET_answers_validation_failure_witness :
  exists response,
    outcome (GET healthy_env (sample_backend (lit "u2")) sample_request (open_session boot))
      = inr response /\
    resp_status response = 400%N.
Proof.
  assert (lit "u1" <> []) as Hu by (intros H; vm_compute in H; discriminate).
  assert (question <> []) as Hq by (intros H; vm_compute in H; discriminate).
  destruct (GET_answers_validation_failure healthy_env (sample_backend (lit "u2"))
              sample_request (lit "u1") question boot boot eq_refl eq_refl Hu Hq)
    as (Hother & _).
  destruct (Hother _ eq_refl) as (Hout & _).
  { intros H. vm_compute in H. discriminate. }
  eexists. split; [exact Hout|reflexivity].
Defined.


(** ** Deleting files *)

Section DeleteFile.

Variable backend : Backend.

(** The loop requests the deletions in order and stops at the first one the
    API refuses. *)
Lemma delete_each_run fileIds :
  forall deletedFiles d,
    let run := delete_each backend fileIds deletedFiles d in
    let base := length (del_requests d) in
    (forall files,
        outcome run = inr files ->
        del_requests (after run) = del_requests d ++ fileIds /\
        exists new,
          files = deletedFiles ++ new /\
          length new = length fileIds /\
          forall i fileId,
            fileIds !! i = Some fileId ->
            exists file, new !! i = Some file /\ del_answer backend base i fileId = inr file) /\
    (forall error,
        outcome run = inl error ->
        exists k fileId,
          fileIds !! k = Some fileId /\
          del_answer backend base k fileId = inl error /\
          del_requests (after run) = del_requests d ++ take (S k) fileIds /\
          forall j fileId',
            j < k -> fileIds !! j = Some fileId' ->
            exists file, del_answer backend base j fileId' = inr file).
Proof.
  induction fileIds as [|fileId rest IH]; intros deletedFiles d run base.
  - subst run. simpl. unfold ret, outcome, after. simpl. split.
    + intros files [= <-]. rewrite app_nil_r. split; [reflexivity|].
      exists []. rewrite app_nil_r. repeat split. intros i f Hi. discriminate.
    + discriminate.
  - subst run. simpl.
    unfold bind, on_world, Date_now, logger_info, modify, files_del.
    simpl. unfold del_answer in *.
    destruct (files_del_reply backend (length (del_requests d)) fileId)
      as [latency [error|file]] eqn:Hreply; simpl.
    + unfold outcome, after. simpl. split; [discriminate|].
      intros e [= <-]. exists 0, fileId. subst base. rewrite Nat.add_0_r, Hreply.
      repeat split. intros j f Hj. lia.
    + match goal with
      | |- context [delete_each backend rest (deletedFiles ++ [file]) ?d1] =>
          specialize (IH (deletedFiles ++ [file]) d1); simpl in IH;
          destruct IH as [IHok IHerr];
          destruct (delete_each backend rest (deletedFiles ++ [file]) d1) as [d2 r]
      end.
      unfold outcome, after in *. simpl in *.
      rewrite length_app in IHok, IHerr. simpl in IHok, IHerr. split.
      * intros files ->. destruct (IHok files eq_refl) as (Hreq & new & -> & Hlen & Hnew).
        split; [by rewrite Hreq, <- app_assoc|].
        exists (file :: new). split; [by rewrite <- app_assoc|]. split; [simpl; lia|].
        intros [|i] f Hi; simpl in *.
        -- injection Hi as <-. exists file. subst base. by rewrite Nat.add_0_r, Hreply.
        -- destruct (Hnew i f Hi) as (file' & Hf & Hans). exists file'. split; [exact Hf|].
           subst base. rewrite <- Hans. f_equal. f_equal. lia.
      * intros error ->.
        destruct (IHerr error eq_refl) as (k & f & Hk & Hans & Hreq & Hbefore).
        exists (S k), f. split; [exact Hk|]. split.
        { subst base. rewrite <- Hans. f_equal. f_equal. lia. }
        split; [by rewrite Hreq, <- app_assoc|].
        intros [|j] f' Hj Hf'; simpl in *.
        -- injection Hf' as <-. exists file. subst base. by rewrite Nat.add_0_r, Hreply.
        -- destruct (Hbefore j f' ltac:(lia) Hf') as (file' & Hfile').
           exists file'. subst base. rewrite <- Hfile'. f_equal. f_equal. lia.
Qed.

(** X12.  [deleteFile] asks the API to delete the files one by one, in the
    order of the list.  When every deletion is accepted it returns the
    answers, one per file id and in that order.  When one is refused it
    throws the error of that refusal: the files before it have been deleted
    and stay so, the files after it are never asked for.  An empty list
    gives an empty result without a request. *)
Theorem deleteFile_stops_at_first_refusal fileIds d :
  let run := deleteFile backend fileIds d in
  let base := length (del_requests d) in
  (forall files,
      outcome run = inr files ->
      del_requests (after run) = del_requests d ++ fileIds /\
      length files = length fileIds /\
      forall i fileId,
        fileIds !! i = Some fileId ->
        exists file, files !! i = Some file /\ del_answer backend base i fileId = inr file) /\
  (forall error,
      outcome run = inl error ->
      exists k fileId,
        fileIds !! k = Some fileId /\
        del_answer backend base k fileId = inl error /\
        del_requests (after run) = del_requests d ++ take (S k) fileIds /\
        forall j fileId',
          j < k -> fileIds !! j = Some fileId' ->
          exists file, del_answer backend base j fileId' = inr file) /\
  (fileIds = [] -> outcome run = inr [] /\ del_requests (after run) = del_requests d).
Proof.
  intros run base.
  assert (exists d0,
             del_requests d0 = del_requests d /\
             outcome run = outcome (delete_each backend fileIds [] d0) /\
             del_requests (after run) = del_requests (after (delete_each backend fileIds [] d0)))
    as (d0 & Hd0 & Hout & Hreq).
  { subst run. unfold deleteFile, bind, try_finally, try_catch, on_world, Date_now,
      logger_info, logger_error, modify, ret, throw. simpl.
    exists {| drive_world :=
                emit (ELog Info
                        (chalk (lit "Starting file deletion process for file IDs: "
                                  ++ join (lit ", ") fileIds)))
                  (drive_world d);
              del_requests := del_requests d |}.
    split; [reflexivity|].
    split;
      match goal with
      | |- context [delete_each backend fileIds nil ?d1] =>
          destruct (delete_each backend fileIds nil d1) as [d2 [error|files]]
      end; reflexivity. }
  destruct (delete_each_run fileIds [] d0) as [Hok Herr].
  simpl in Hok, Herr. rewrite Hd0 in Hok, Herr. fold base in Hok, Herr.
  rewrite <- Hout, <- Hreq in Hok, Herr.
  split; [|split].
  - intros files Hfiles. destruct (Hok files Hfiles) as (Hall & new & -> & Hlen & Hnew).
    simpl. repeat split; assumption.
  - exact Herr.
  - intros ->. destruct (outcome run) as [error|files] eqn:Hrun.
    + destruct (Herr error eq_refl) as (k & f & Hk & _). discriminate.
    + destruct (Hok files eq_refl) as (Hall & new & -> & Hlen & _).
      destruct new; [|discriminate]. by rewrite app_nil_r in Hall.
Qed.

End DeleteFile.

Lemma deleteFile_stops_at_first_refusal_witness :
  let run := deleteFile (locked_backend (lit "file-b"))
               [lit "file-a"; lit "file-b"; lit "file-c"] empty_drive in
  outcome run = inl (new_Error (lit "409 Conflict")) /\
  del_requests (after run) = [lit "file-a"; lit "file-b"].
Proof.
  intros run.
  destruct (deleteFile_stops_at_first_refusal (locked_backend (lit "file-b"))
              [lit "file-a"; lit "file-b"; lit "file-c"] empty_drive) as (_ & Herr & _).
  assert (outcome run = inl (new_Error (lit "409 Conflict"))) as Hout
    by (vm_compute; reflexivity).
  split; [exact Hout|].
  destruct (Herr _ Hout) as (k & fileId & Hk & Hans & Hreq & _).
  fold run in Hreq. rewrite Hreq.
  destruct k as [|[|[|k]]]; simpl in Hk; try discriminate;
    injection Hk as <-; vm_compute in Hans; try discriminate.
  reflexivity.
Defined.

(** ** Upserting *)

Section Upsert.

Variable env : Env.

Lemma to_points_run embeddings :
  forall w,
  exists w' points,
    to_points env embeddings w = (w', inr points) /\
    trace w' = trace w /\
    uuid_draws w' = uuid_draws w + length embeddings /\
    map point_id points = map (uuidv4 env) (seq (uuid_draws w) (length embeddings)) /\
    map vector points = map emb_values embeddings /\
    map payload points = map payload_of embeddings.
Proof.
  induction embeddings as [|embedding rest IH]; intros w; simpl.
  - exists w, []. unfold ret. repeat split. lia.
  - unfold bind, draw_uuid, ret. simpl.
    destruct (IH (count_uuid w)) as (w' & points & Hrun & Htrace & Hdraws & Hids & Hvec & Hpay).
    rewrite Hrun. eexists _, _. split; [reflexivity|]. simpl in *.
    split; [exact Htrace|]. split; [lia|].
    split; [by rewrite Hids|]. split; [by rewrite Hvec|]. by rewrite Hpay.
Qed.

(** The request of an upsert. *)
Lemma upsertDocument_points userId embeddings w :
  exists points added,
    trace (after (upsertDocument env userId embeddings w)) = trace w ++ added /\
    upsert_requests added = [(qdrant_collection env, points)] /\
    map point_id points = map (uuidv4 env) (seq (uuid_draws w) (length embeddings)) /\
    map vector points = map emb_values embeddings /\
    map payload points = map payload_of embeddings /\
    uuid_draws (after (upsertDocument env userId embeddings w))
      = uuid_draws w + length embeddings.
Proof.
  unfold upsertDocument, bind, try_catch, logger_info, logger_error, modify,
    qdrant_upsert, throw, ret, after, outcome, chalk. simpl.
  destruct (to_points_run embeddings
              (emit (ELog Info (lit "Starting upsert for user " ++ userId)) w))
    as (w1 & points & Hrun & Htrace & Hdraws & Hids & Hvec & Hpay).
  rewrite Hrun. simpl in *. exists points.
  destruct (client_upsert env (qdrant_collection env) points) as [error|[]]; simpl;
    (eexists; split; [rewrite Htrace; rewrite <- ?app_assoc; reflexivity|]);
    repeat split; assumption.
Qed.

(** X13.  [upsertDocument] sends one upsert request, to the configured
    collection, with one point per embedding and in the order of the
    embeddings: the point keeps the vector of its embedding, carries its id
    as [embeddingId] and its metadata (an empty object when it has none) in
    the payload, and gets the next identifier of [uuidv4] as point id.  It
    returns the number of embeddings when the store accepts the request and
    rethrows the error of the store when it does not. *)
Theorem upsertDocument_writes_one_point_per_embedding userId embeddings w :
  let run := upsertDocument env userId embeddings w in
  exists points added,
    trace (after run) = trace w ++ added /\
    upsert_requests added = [(qdrant_collection env, points)] /\
    map point_id points = map (uuidv4 env) (seq (uuid_draws w) (length embeddings)) /\
    map vector points = map emb_values embeddings /\
    map payload points
      = map (fun e => [(lit "embeddingId", JStr (emb_id e));
                       (lit "metadata", JObj (default [] (emb_metadata e)))]) embeddings /\
    uuid_draws (after run) = uuid_draws w + length embeddings /\
    outcome run
      = match client_upsert env (qdrant_collection env) points with
        | inr _ => inr (length embeddings)
        | inl error => inl error
        end.
Proof.
  unfold upsertDocument, bind, try_catch, logger_info, logger_error, modify,
    qdrant_upsert, throw, ret, after, outcome, chalk. simpl.
  destruct (to_points_run embeddings
              (emit (ELog Info (lit "Starting upsert for user " ++ userId)) w))
    as (w1 & points & Hrun & Htrace & Hdraws & Hids & Hvec & Hpay).
  rewrite Hrun. simpl in *. exists points.
  destruct (client_upsert env (qdrant_collection env) points) as [error|[]]; simpl;
    (eexists; split; [rewrite Htrace; rewrite <- ?app_assoc; reflexivity|]);
    repeat split; assumption.
Qed.

(** X14.  Upserting is not idempotent: with a [uuidv4] that never hands out
    an identifier twice, the points of one request have pairwise different
    ids, and a later upsert of the same embeddings writes points that carry
    the same payloads and vectors under ids the earlier one did not use. *)
Theorem upsertDocument_mints_new_points userId1 userId2 embeddings w1 w2
    points1 points2 added1 added2 :
  (forall i j, i <> j -> uuidv4 env i <> uuidv4 env j) ->
  trace (after (upsertDocument env userId1 embeddings w1)) = trace w1 ++ added1 ->
  upsert_requests added1 = [(qdrant_collection env, points1)] ->
  uuid_draws (after (upsertDocument env userId1 embeddings w1)) <= uuid_draws w2 ->
  trace (after (upsertDocument env userId2 embeddings w2)) = trace w2 ++ added2 ->
  upsert_requests added2 = [(qdrant_collection env, points2)] ->
  NoDup (map point_id points1) /\
  (forall id, id ∈ map point_id points1 -> id ∉ map point_id points2) /\
  map payload points1 = map payload points2 /\
  map vector points1 = map vector points2.
Proof.
  intros Hfresh Htrace1 Hreq1 Hlater Htrace2 Hreq2.
  destruct (upsertDocument_points userId1 embeddings w1)
    as (p1 & a1 & Ht1 & Hr1 & Hids1 & Hvec1 & Hpay1 & Hdraws1).
  destruct (upsertDocument_points userId2 embeddings w2)
    as (p2 & a2 & Ht2 & Hr2 & Hids2 & Hvec2 & Hpay2 & _).
  rewrite Ht1 in Htrace1. apply app_inv_head in Htrace1. subst a1.
  rewrite Ht2 in Htrace2. apply app_inv_head in Htrace2. subst a2.
  rewrite Hreq1 in Hr1. injection Hr1 as <-.
  rewrite Hreq2 in Hr2. injection Hr2 as <-.
  rewrite Hdraws1 in Hlater.
  assert (Inj eq eq (uuidv4 env)) as Hinj.
  { intros i j Heq. destruct (decide (i = j)) as [|Hne]; [done|].
    by destruct (Hfresh i j Hne). }
  split; [|split; [|split]].
  - rewrite Hids1. apply (NoDup_fmap_2 _). apply NoDup_seq.
  - intros id. rewrite Hids1, Hids2.
    intros (i & -> & Hi)%list_elem_of_fmap (j & Heq & Hj)%list_elem_of_fmap.
    apply Hinj in Heq. subst j.
    apply elem_of_seq in Hi, Hj. lia.
  - by rewrite Hpay1, Hpay2.
  - by rewrite Hvec1, Hvec2.
Qed.

End Upsert.

Lemma upsertDocument_mints_new_points_witness :
  let first := upsertDocument healthy_env (lit "u1") sample_embeddings boot in
  let second := upsertDocument healthy_env (lit "u1") sample_embeddings (after first) in
  exists points1 points2,
    upsert_requests (trace (after second))
      = [(qdrant_collection healthy_env, points1); (qdrant_collection healthy_env, points2)] /\
    NoDup (map point_id points1) /\
    (forall id, id ∈ map point_id points1 -> id ∉ map point_id points2) /\
    map payload points1 = map payload points2 /\
    map vector points1 = map vector points2.
Proof.
  intros first second.
  destruct (upsertDocument_points healthy_env (lit "u1") sample_embeddings boot)
    as (points1 & added1 & Htrace1 & Hrequest1 & _).
  destruct (upsertDocument_points healthy_env (lit "u1") sample_embeddings (after first))
    as (points2 & added2 & Htrace2 & Hrequest2 & _).
  exists points1, points2. split.
  - unfold second. rewrite Htrace2. unfold first. rewrite Htrace1.
    change (trace boot ++ added1) with added1.
    unfold upsert_requests in *. rewrite omap_app, Hrequest1, Hrequest2. reflexivity.
  - exact (upsertDocument_mints_new_points healthy_env (lit "u1") (lit "u1")
             sample_embeddings boot (after first) points1 points2 added1 added2
             sample_uuid_fresh Htrace1 Hrequest1 (le_n _) Htrace2 Hrequest2).
Defined.

(** ** The ids and the progress of a batch *)

Lemma chunk_id_inj name key : Inj eq eq (chunk_id name key).
Proof.
  intros i j Heq. unfold chunk_id in Heq.
  do 4 apply app_inv_head in Heq. apply dec_inj in Heq. lia.
Qed.

Lemma progress_app es1 es2 : progress (es1 ++ es2) = progress es1 ++ progress es2.
Proof. apply List.filter_app. Qed.

Lemma progress_failure_lines {A} i (settled : list (JsError + A)) :
  progress (failure_lines i settled) = [].
Proof.
  revert i. induction settled as [|[e|a] settled IH]; intros i; simpl; [done| |]; apply IH.
Qed.

Section BatchIds.

Variable env : Env.
Variable userId : JsString.
Variable file : KnowledgebaseFile.

(** The ids of the chunks embedded in a batch are ids of positions of the
    batch, in the order of the positions. *)
Lemma successes_ids name chunks :
  file_name file = Some name ->
  forall n k,
    sublist
      (map emb_id
         (successes (imap (fun i chunk => embedChunk_result env userId file (n + i) (k + i) chunk)
                       chunks)))
      (map (chunk_id name (file_key file)) (seq k (length chunks))).
Proof.
  intros Hname. induction chunks as [|chunk chunks IH]; intros n k; [constructor|].
  rewrite imap_cons. simpl.
  rewrite (imap_ext _ (fun i chunk => embedChunk_result env userId file (S n + i) (S k + i) chunk))
    by (intros i x _; simpl; by rewrite !Nat.add_succ_r).
  unfold successes in *. simpl.
  destruct (embedChunk_result env userId file (n + 0) (k + 0) chunk) as [error|e] eqn:Hresult;
    simpl.
  - apply sublist_cons, (IH (S n) (S k)).
  - destruct (embedChunk_result_id _ _ _ _ _ _ _ Hresult) as (name' & Hname' & ->).
    rewrite Hname in Hname'. injection Hname' as <-.
    rewrite Nat.add_0_r. apply sublist_skip, (IH (S n) (S k)).
Qed.

Lemma successes_need_a_name chunks :
  file_name file = None ->
  forall n k,
    successes (imap (fun i chunk => embedChunk_result env userId file (n + i) (k + i) chunk)
                 chunks) = [].
Proof.
  intros Hname. induction chunks as [|chunk chunks IH]; intros n k; [reflexivity|].
  rewrite imap_cons.
  rewrite (imap_ext _ (fun i chunk => embedChunk_result env userId file (S n + i) (S k + i) chunk))
    by (intros i x _; simpl; by rewrite !Nat.add_succ_r).
  unfold successes in *. simpl.
  destruct (embedChunk_result env userId file (n + 0) (k + 0) chunk) as [error|e] eqn:Hresult;
    simpl; [apply (IH (S n) (S k))|].
  destruct (embedChunk_result_id _ _ _ _ _ _ _ Hresult) as (name' & Hname' & _).
  congruence.
Qed.

End BatchIds.

(** X15.  The embeddings [embedDocument] returns have pairwise different
    ids and come in the order of their chunks: their ids are picked, in
    order, from the ids [toAscii(file.name) # file.key # 1], [... # 2], ... of
    the positions of the batch.  For a file without a name nothing is
    embedded. *)
Theorem embedDocument_ids_distinct_and_ordered env' userId' file' chunks w embeddings :
  timers w = [] ->
  outcome (embedDocument env' userId' file' chunks w) = inr embeddings ->
  NoDup (map emb_id embeddings) /\
  length embeddings <= length chunks /\
  match file_name file' with
  | Some name =>
      sublist (map emb_id embeddings)
        (map (fun index => toAscii name ++ lit "#" ++ file_key file' ++ lit "#" ++ dec (index + 1))
           (seq 0 (length chunks)))
  | None => embeddings = []
  end.
Proof.
  intros Hquiet Hout.
  rewrite (embedDocument_returns _ _ _ _ _ _ Hquiet Hout).
  unfold batch_results.
  rewrite (imap_ext _ (fun i chunk =>
             embedChunk_result env' userId' file' (create_calls w + i) (0 + i) chunk))
    by reflexivity.
  destruct (file_name file') as [name|] eqn:Hname.
  - pose proof (successes_ids env' userId' file' name chunks Hname (create_calls w) 0)
      as Hsub.
    pose proof (chunk_id_inj name (file_key file')) as Hinj.
    split; [|split; [|exact Hsub]].
    + eapply sublist_NoDup; [|exact Hsub]. apply (NoDup_fmap_2 _), NoDup_seq.
    + apply sublist_length in Hsub. by rewrite !length_map, length_seq in Hsub.
  - rewrite (successes_need_a_name env' userId' file' chunks Hname).
    split; [constructor|]. split; [simpl; lia|reflexivity].
Qed.

Lemma embedDocument_ids_distinct_and_ordered_witness :
  let embeddings := successes (batch_results slow_env (lit "u1") sample_file ten_chunks boot) in
  outcome (embedDocument slow_env (lit "u1") sample_file ten_chunks boot) = inr embeddings /\
  NoDup (map emb_id embeddings) /\
  length embeddings <= length ten_chunks.
Proof.
  intros embeddings.
  destruct (embedDocument_run slow_env (lit "u1") sample_file ten_chunks boot eq_refl eq_refl)
    as (w' & jobs & duration & Hrun & _).
  assert (outcome (embedDocument slow_env (lit "u1") sample_file ten_chunks boot)
          = inr embeddings) as Hout.
  { rewrite Hrun. reflexivity. }
  destruct (embedDocument_ids_distinct_and_ordered slow_env (lit "u1") sample_file
              ten_chunks boot embeddings eq_refl Hout)
    as (Hdistinct & Hlength & _).
  split; [exact Hout|]. split; [exact Hdistinct|exact Hlength].
Defined.

(** ** The progress bar *)

Section Progress.

Variable env : Env.
Variable userId : JsString.
Variable file : KnowledgebaseFile.

(** [embedChunk] advances the progress bar once when it embeds its chunk,
    and not at all when it fails. *)
Lemma embedChunk_progress chunk index w :
  timers w = [] ->
  progress (trace (after (embedChunk env userId file chunk index w)))
  = progress (trace w)
      ++ match embedChunk_result env userId file (create_calls w) index chunk with
         | inr _ => [EProgressIncrement]
         | inl _ => []
         end.
Proof.
  intros Hquiet. unfold embedChunk_result.
  unfold embedChunk, bind, try_catch, new_AbortController, setTimeout_abort,
    embeddings_create, clearTimeout, modify, ret, throw, logger_error,
    outcome, after; simpl.
  rewrite Hquiet. simpl. rewrite ?Nat.eqb_refl. simpl.
  set (reply := embeddings_reply env (create_calls w) (embeddingApiModel env) (chunk_text chunk)).
  assert ((clock w + 15000 <=? clock w + latency reply)%N = (15000 <=? latency reply)%N) as ->.
  { destruct (N.leb_spec 15000 (latency reply)) as [H|H].
    - apply N.leb_le. lia.
    - apply N.leb_gt. lia. }
  destruct (15000 <=? latency reply)%N; simpl.
  { rewrite bool_decide_eq_true_2 by reflexivity. simpl.
    rewrite ?Nat.eqb_refl. simpl. rewrite !progress_app. simpl. by rewrite !app_nil_r. }
  rewrite ?Nat.eqb_refl. simpl.
  destruct (response reply) as [error|embeddingValues]; simpl.
  { rewrite ?Nat.eqb_refl. simpl.
    destruct (bool_decide (err_name error = lit "AbortError")); simpl;
      rewrite !progress_app; simpl; by rewrite !app_nil_r. }
  destruct (file_name file) as [name|]; simpl.
  - rewrite !progress_app. simpl. by rewrite !app_nil_r.
  - rewrite bool_decide_eq_false_2 by discriminate. simpl.
    rewrite !progress_app. simpl. by rewrite !app_nil_r.
Qed.

Lemma scheduled_chunk_progress limiter chunk index w :
  timers w = [] ->
  exists w',
    limiter_schedule limiter (embedChunk env userId file chunk index) w
      = (w', embedChunk_result env userId file (create_calls w) index chunk) /\
    progress (trace w')
      = progress (trace w)
          ++ match embedChunk_result env userId file (create_calls w) index chunk with
             | inr _ => [EProgressIncrement]
             | inl _ => []
             end /\
    timers w' = [] /\
    create_calls w' = S (create_calls w).
Proof.
  intros Hquiet. unfold limiter_schedule.
  pose proof (embedChunk_progress chunk index (set_running_in (Some limiter) w) Hquiet)
    as Hprogress.
  destruct (embedChunk_run env userId file chunk index (set_running_in (Some limiter) w))
    as (w1 & added & Hrun & _ & _ & _ & _ & Hq & Hcalls & _); [exact Hquiet|].
  rewrite Hrun in Hprogress |- *. simpl in *.
  exists (set_running_in (running_in w) w1). repeat split; assumption.
Qed.

Lemma scheduled_chunks_progress limiter chunks :
  forall k w,
    timers w = [] ->
    progress
      (trace (after (allSettled
                       (imap (fun i chunk =>
                                limiter_schedule limiter
                                  (embedChunk env userId file chunk (k + i)))
                          chunks) w)))
    = progress (trace w)
        ++ replicate
             (length (successes
                        (imap (fun i chunk =>
                                 embedChunk_result env userId file (create_calls w + i) (k + i)
                                   chunk)
                           chunks)))
             EProgressIncrement.
Proof.
  induction chunks as [|chunk chunks IH]; intros k w Hquiet.
  - simpl. by rewrite app_nil_r.
  - rewrite !imap_cons. simpl.
    destruct (scheduled_chunk_progress limiter chunk (k + 0) w Hquiet)
      as (w1 & Hrun1 & Hprogress1 & Hq1 & Hcalls1).
    rewrite Hrun1.
    specialize (IH (S k) w1 Hq1).
    rewrite (imap_ext _ (fun i chunk =>
               limiter_schedule limiter (embedChunk env userId file chunk (S k + i))))
      by (intros i x _; simpl; by rewrite Nat.add_succ_r).
    rewrite (imap_ext
               (fun i chunk => embedChunk_result env userId file (create_calls w + S i)
                                 (k + S i) chunk)
               (fun i chunk => embedChunk_result env userId file (create_calls w1 + i)
                                 (S k + i) chunk))
      by (intros i x _; simpl; rewrite Hcalls1; f_equal; lia).
    destruct (allSettled _ w1) as [w2 [error|settled]]; unfold after in *; simpl in *;
      rewrite IH, Hprogress1, !Nat.add_0_r;
      unfold successes; simpl;
      destruct (embedChunk_result env userId file (create_calls w) k chunk);
      simpl; by rewrite <- ?app_assoc.
Qed.

End Progress.

(** X16.  The progress bar of a batch is started with the number of chunks,
    advanced once for every embedding the batch returns and for nothing
    else, and stopped at the end; when the batch throws instead, the bar is
    started and stopped without being advanced. *)
Theorem embedDocument_progress env userId file chunks w :
  timers w = [] ->
  let run := embedDocument env userId file chunks w in
  progress (trace (after run))
  = progress (trace w)
      ++ [EProgressStart (length chunks)]
      ++ replicate (match outcome run with
                    | inr embeddings => length embeddings
                    | inl _ => 0
                    end) EProgressIncrement
      ++ [EProgressStop].
Proof.
  intros Hquiet.
  unfold embedDocument, bind, try_finally, try_catch, Date_now, new_Bottleneck,
    modify, logger_info, logger_error, schedule_chunks, ret, throw.
  destruct (setup_fault env) as [fault|]; simpl.
  { unfold after. simpl. rewrite !progress_app. simpl. by rewrite !app_nil_r, <- !app_assoc. }
  set (w0 := emit _ (emit _ (count_handle (emit _ w)))).
  pose proof (scheduled_chunks_progress env userId file (handles w) chunks 0 w0 Hquiet)
    as Hprogress.
  destruct (scheduled_chunks_run env userId file (handles w) chunks 0 w0)
    as (w1 & jobs & Hrun & _); [exact Hquiet|].
  simpl in Hrun, Hprogress. rewrite Hrun in Hprogress |- *. simpl.
  rewrite process_results_run. unfold after in *. simpl in *.
  rewrite !progress_app, Hprogress, progress_failure_lines.
  subst w0. simpl. rewrite !progress_app. simpl.
  by rewrite !app_nil_r, <- !app_assoc.
Qed.

Lemma embedDocument_progress_witness :
  let run := embedDocument slow_env (lit "u1") sample_file ten_chunks boot in
  progress (trace (after run))
  = [EProgressStart 10] ++ replicate 8 EProgressIncrement ++ [EProgressStop].
Proof.
  pose proof (embedDocument_progress slow_env (lit "u1") sample_file ten_chunks boot eq_refl)
    as Hprogress.
  destruct (embedDocument_run slow_env (lit "u1") sample_file ten_chunks boot eq_refl eq_refl)
    as (w' & jobs & duration & Hrun & _).
  cbv zeta in *. rewrite Hrun in Hprogress |- *.
  etransitivity; [exact Hprogress|]. vm_compute. reflexivity.
Defined.

(** ** What an embedding says about its chunk *)

Lemma embedChunk_result_fulfilled env userId file n index chunk e :
  embedChunk_result env userId file n index chunk = inr e ->
  exists name,
    file_name file = Some name /\
    emb_id e = chunk_id name (file_key file) index /\
    response (embeddings_reply env n (embeddingApiModel env) (chunk_text chunk))
      = inr (emb_values e) /\
    emb_metadata e
      = Some (chunk_metadata_of
                (transformObjectValues env (chunk_metadata chunk))
                (chunk_text chunk) userId (file_url file)
                (lit "[" ++ name ++ pageInfo_of env (chunk_metadata chunk)
                   ++ lit "](" ++ tpl (file_url file) ++ lit ")")).
Proof.
  unfold embedChunk_result.
  destruct (15000 <=? _)%N; [discriminate|].
  destruct (response _); [discriminate|].
  destruct (file_name file) as [name|]; [|discriminate].
  intros [= <-]. by exists name.
Qed.

Lemma successes_lookup {A} (settled : list (JsError + A)) a :
  a ∈ successes settled -> exists i, settled !! i = Some (inr a).
Proof.
  unfold successes. intros (r & Hin & Hr)%list_elem_of_omap.
  destruct r as [error|a']; [discriminate|]. injection Hr as ->.
  by apply list_elem_of_lookup_1.
Qed.

(** X17.  Every embedding [embedDocument] returns belongs to a chunk of the
    batch: it has the id of the position of that chunk and the vector the
    provider returned for the text of the chunk, and its metadata gives the
    text of the chunk under [text], the user under [userId], the url of the
    file under [url] and the citation [[name, Page n](url)] under [citation]
    -- also when the metadata of the chunk has keys of these names. *)
Theorem embedDocument_embeddings_describe_chunks env userId file chunks w embeddings e :
  timers w = [] ->
  outcome (embedDocument env userId file chunks w) = inr embeddings ->
  e ∈ embeddings ->
  exists index chunk name metadata,
    chunks !! index = Some chunk /\
    file_name file = Some name /\
    emb_id e = toAscii name ++ lit "#" ++ file_key file ++ lit "#" ++ dec (index + 1) /\
    response (embeddings_reply env (create_calls w + index) (embeddingApiModel env)
                (chunk_text chunk)) = inr (emb_values e) /\
    emb_metadata e = Some metadata /\
    obj_get metadata (lit "text") = Some (JStr (chunk_text chunk)) /\
    obj_get metadata (lit "userId") = Some (JStr userId) /\
    obj_get metadata (lit "url") = Some (from_option JStr JUndefined (file_url file)) /\
    obj_get metadata (lit "citation")
      = Some (JStr (lit "[" ++ name
                      ++ match obj_get (chunk_metadata chunk) (lit "page_number") with
                         | Some page_number =>
                             if truthy page_number
                             then lit ", Page " ++ String_of env page_number
                             else lit ""
                         | None => lit ""
                         end
                      ++ lit "](" ++ tpl (file_url file) ++ lit ")")).
Proof.
  intros Hquiet Hout Hin.
  rewrite (embedDocument_returns _ _ _ _ _ _ Hquiet Hout) in Hin.
  apply successes_lookup in Hin as (index & Hlookup).
  apply batch_results_lookup in Hlookup as (chunk & Hchunk & Hresult).
  symmetry in Hresult.
  apply embedChunk_result_fulfilled in Hresult as (name & Hname & Hid & Hvector & Hmeta).
  exists index, chunk, name. eexists.
  split; [exact Hchunk|]. split; [exact Hname|]. split; [exact Hid|].
  split; [exact Hvector|]. split; [exact Hmeta|].
  unfold chunk_metadata_of. rewrite !obj_get_set.
  repeat split;
    repeat (first [ rewrite bool_decide_eq_true_2 by reflexivity
                  | rewrite bool_decide_eq_false_2 by (intros Heq%lit_inj; discriminate) ]);
    reflexivity.
Qed.

Lemma embedDocument_embeddings_describe_chunks_witness :
  let embeddings := successes (batch_results healthy_env (lit "u1") sample_file three_chunks boot) in
  exists e metadata,
    e ∈ embeddings /\
    emb_metadata e = Some metadata /\
    obj_get metadata (lit "userId") = Some (JStr (lit "u1")) /\
    obj_get metadata (lit "url") = Some (from_option JStr JUndefined (file_url sample_file)).
Proof.
  intros embeddings.
  destruct (embedDocument_run healthy_env (lit "u1") sample_file three_chunks boot
              eq_refl eq_refl)
    as (w' & jobs & duration & Hrun & _).
  assert (outcome (embedDocument healthy_env (lit "u1") sample_file three_chunks boot)
          = inr embeddings) as Hout.
  { rewrite Hrun. reflexivity. }
  assert (exists e rest, embeddings = e :: rest) as (e & rest & Hfirst).
  { vm_compute. eexists _, _. reflexivity. }
  assert (e ∈ embeddings) as Hin.
  { rewrite Hfirst. left. }
  destruct (embedDocument_embeddings_describe_chunks healthy_env (lit "u1") sample_file
              three_chunks boot embeddings e eq_refl Hout Hin)
    as (index & chunk & name & metadata & _ & _ & _ & _ & Hmeta & _ & Huser & Hurl & _).
  exists e, metadata.
  split; [exact Hin|]. split; [exact Hmeta|]. split; [exact Huser|exact Hurl].
Defined.

(** ** Deleting with an identifier *)

(** X18.  A delete call for a file with a name or a url sends exactly one
    request, to the configured collection, whose filter holds the name and
    the url of the file and nothing of the user; it returns 1 when the store
    accepts the request, whatever the request removed, and rethrows the
    error of the store when it does not. *)
Theorem deleteFromVectorDb_sends_one_request env userId file w :
  truthy_str (file_name file) = true \/ truthy_str (file_url file) = true ->
  let run := deleteFromVectorDb env userId file w in
  let must := [ {| cond_key := lit "name"; cond_value := file_name file |};
                {| cond_key := lit "url"; cond_value := file_url file |} ] in
  exists added,
    trace (after run) = trace w ++ added /\
    deletions added = [(qdrant_collection env, must)] /\
    outcome run
      = match client_delete env (qdrant_collection env) must with
        | inr _ => inr 1%N
        | inl error => inl error
        end.
Proof.
  intros Hidentified.
  unfold deleteFromVectorDb, delete_filter, bind, try_catch, logger_info, logger_error,
    modify, qdrant_delete, throw, ret, outcome, after.
  assert (negb (truthy_str (file_name file)) && negb (truthy_str (file_url file)) = false)
    as ->.
  { destruct Hidentified as [-> | ->]; [reflexivity|]. apply andb_false_r. }
  simpl.
  destruct (client_delete env _ _) as [error|[]]; simpl;
    eexists; (split; [rewrite <- ?app_assoc; reflexivity|]); split; reflexivity.
Qed.

Lemma deleteFromVectorDb_sends_one_request_witness :
  exists added,
    trace (after (deleteFromVectorDb healthy_env (lit "u1") sample_file boot))
      = trace boot ++ added /\
    deletions added
      = [(lit "atlasv1",
          [ {| cond_key := lit "name"; cond_value := file_name sample_file |};
            {| cond_key := lit "url"; cond_value := file_url sample_file |} ])].
Proof.
  destruct (deleteFromVectorDb_sends_one_request healthy_env (lit "u1") sample_file boot
              (or_introl eq_refl))
    as (added & Htrace & Hdeletions & _).
  exists added. split; [exact Htrace|exact Hdeletions].
Defined.

(** ** Where a session stops *)

Section RouteStops.

Variable env : Env.
Variables userId message : JsString.
Variable settings : Settings.


End RouteStops.


(** ** Arrays in the metadata *)

Lemma index_entries_imap {B} (f : JsString * JsValue -> B) items :
  forall k,
    map f (index_entries k items) = imap (fun i item => f (dec (k + i), item)) items.
Proof.
  induction items as [|item items IH]; intros k; simpl; [reflexivity|].
  rewrite Nat.add_0_r. f_equal. rewrite IH.
  apply imap_ext. intros i x _. simpl. by rewrite Nat.add_succ_r.
Qed.

(** X19.  An array is an object to [transformObjectValues]: an array value
    of the metadata is replaced by the strings [index:JSON] of its items, so
    that [languages: ['eng']] is stored as [['0:"eng"']]. *)
Theorem transformObjectValues_reindexes_arrays env obj key items :
  NoDup (keys obj) ->
  obj_get obj key = Some (JArr items) ->
  obj_get (transformObjectValues env obj) key
  = Some (JArr (imap (fun i item => JStr (dec i ++ lit ":" ++ JSON_stringify env item))
                  items)).
Proof.
  intros Hnd Hget.
  rewrite transformObjectValues_map by exact Hnd.
  rewrite obj_get_map_transformed, Hget. simpl.
  unfold transformed, stringify_entries. simpl. do 2 f_equal.
  rewrite (index_entries_imap
             (fun '(k, v) => JStr (k ++ lit ":" ++ JSON_stringify env v)) items 0).
  reflexivity.
Qed.

Lemma transformObjectValues_reindexes_arrays_witness :
  obj_get (transformObjectValues healthy_env
             [(lit "filetype", JStr (lit "application/pdf"));
              (lit "languages", JArr [JStr (lit "eng")])])
    (lit "languages")
  = Some (JArr [JStr (dec 0 ++ lit ":" ++ JSON_stringify healthy_env (JStr (lit "eng")))]).
Proof.
  apply (transformObjectValues_reindexes_arrays healthy_env
           [(lit "filetype", JStr (lit "application/pdf"));
            (lit "languages", JArr [JStr (lit "eng")])]
           (lit "languages") [JStr (lit "eng")]).
  - apply (bool_decide_unpack _). vm_compute. exact I.
  - vm_compute. reflexivity.
Defined.

(** ** Failures inside a session *)



(** ** The session on a stream that can be cancelled *)

Section WireFacts.

Variable env : Env.
Variable outside : Wire.Outside.
Variables userId message : JsString.
Variable settings : Settings.

Ltac run_wire :=
  unfold Wire.retrieveContext, Wire.try_finally, Wire.try_catch, Wire.bind, Wire.call,
    Wire.own, Wire.sendUpdate, Wire.route_logger, Wire.message_of, Wire.ret,
    Wire.after, Wire.outcome; simpl.

Lemma message_text_speaks thrown :
  Wire.nullish thrown = false -> exists text, Wire.message_text env thrown = inr text.
Proof.
  destruct thrown as [error|[]]; simpl; try discriminate; eauto.
Qed.

(** C2 (as amended).  On a stream whose consumer takes the events of the
    session, and with collaborators that reject, if they do, with a value
    other than [null] and [undefined], [retrieveContext] returns normally
    whatever the stages settle with: no exception leaves it, and the events
    it appends to the stream end with Done, which occurs nowhere before. *)
Theorem retrieveContext_done_on_a_read_stream (p : Wire.Piped) :
  (forall n, Wire.reads p = Some n -> 5 <= n) ->
  Wire.speaks outside ->
  exists p1 before,
    Wire.retrieveContext env outside userId message settings (Wire.sendUpdate outside) p
      = (p1, inr tt) /\
    stream (Wire.session p1) = stream (Wire.session p) ++ before ++ [Done message] /\
    Forall (fun ev => status ev <> lit "Done") before.
Proof.
  intros Hreads (Hfactory & Hquery & Hrerank).
  destruct p as [s taken]. simpl in Hreads.
  assert (taken = None \/ exists n, taken = Some (5 + n)) as Htaken.
  { destruct taken as [n|]; [right|by left].
    exists (n - 5). f_equal. specialize (Hreads n eq_refl). lia. }
  destruct Htaken as [-> | [n ->]]; run_wire.
  all: destruct (embedMessage env userId message (world s)) as [w1 [e1|emb]]; simpl.
  all: try (eexists _, [_; _]; split; [reflexivity|]; split;
            [simpl; rewrite <- !app_assoc; reflexivity
            |repeat constructor; intros H%lit_inj; discriminate]).
  all: destruct (Wire.the_getVectorDbProvider outside (vectorizationProvider settings) w1)
         as [w2 [t2|supplier]] eqn:Hp; simpl.
  all: try (destruct (message_text_speaks t2 (Hfactory _ _ _ _ Hp)) as [text ->]; simpl;
            eexists _, [_; _; _]; split; [reflexivity|]; split;
            [simpl; rewrite <- !app_assoc; reflexivity
            |repeat constructor; intros H%lit_inj; discriminate]).
  all: destruct (Wire.supplier_query supplier userId emb (vectorDbTopK settings) w2)
         as [w3 [t3|qr]] eqn:Hq; simpl.
  all: try (destruct (message_text_speaks t3 (Hquery _ _ _ _ _ _ _ _ _ _ Hp Hq))
              as [text ->]; simpl;
            eexists _, [_; _; _]; split; [reflexivity|]; split;
            [simpl; rewrite <- !app_assoc; reflexivity
            |repeat constructor; intros H%lit_inj; discriminate]).
  all: destruct (context qr) as [|passage passages]; simpl.
  all: try (eexists _, [_; _; _; _]; split; [reflexivity|]; split;
            [simpl; rewrite <- !app_assoc; reflexivity
            |repeat constructor; intros H%lit_inj; discriminate]).
  all: destruct (Wire.the_rerank outside message (passage :: passages)
                   (knowledgebase settings) w3) as [w4 [t4|text]] eqn:Hr; simpl.
  all: try (destruct (message_text_speaks t4 (Hrerank _ _ _ _ _ _ Hr)) as [text ->]; simpl).
  all: eexists _, [_; _; _; _]; split; [reflexivity|]; split;
    [simpl; rewrite <- !app_assoc; reflexivity
    |repeat constructor; intros H%lit_inj; discriminate].
Qed.

(** A session is rejected only with an error the runtime made: the
    TypeError of a write to a stream that is no longer readable, or the
    TypeError of reading the message of [null] or [undefined]. *)
Lemma retrieveContext_rejections (p : Wire.Piped) thrown :
  Wire.outcome
    (Wire.retrieveContext env outside userId message settings (Wire.sendUpdate outside) p)
    = inl thrown ->
  thrown = Wire.AnError (Wire.closed_error outside) \/
  thrown = Wire.AnError
             (TypeError (lit "Cannot read properties of null (reading 'message')")) \/
  thrown = Wire.AnError
             (TypeError (lit "Cannot read properties of undefined (reading 'message')")).
Proof.
  unfold Wire.retrieveContext, Wire.try_finally, Wire.try_catch.
  match goal with
  | |- context [Wire.bind ?first ?rest p] =>
      destruct (Wire.bind first rest p) as [p1 [x|[]]]
  end.
  - destruct p1 as [s1 taken].
    unfold Wire.bind, Wire.message_of, Wire.sendUpdate, Wire.route_logger, Wire.outcome.
    destruct x as [error|[]]; simpl; destruct taken as [[|[|n]]|]; simpl;
      intros [= <-]; auto.
  - destruct p1 as [s1 taken].
    unfold Wire.bind, Wire.sendUpdate, Wire.route_logger, Wire.outcome.
    destruct taken as [[|n]|]; simpl; intros [= <-]; auto.
Qed.

(** X10.  The [start] callback of the stream settles whatever the stages
    and the consumer do.  What [.catch] receives -- the rejection of the
    session, or of [controller.close()] -- is an error the runtime made (of
    a write to a stream that is no longer readable, or of reading the
    message of [null] or [undefined]), so reading its message does not
    throw: it is logged and handed to [controller.error].  The stream is closed by the handler when the
    session resolved and the consumer still reads, put in error when the
    session was rejected and the consumer still reads, and is otherwise the
    stream the consumer cancelled; [start] writes nothing to it after the
    session. *)
Theorem start_always_settles (p : Wire.Piped) :
  let session :=
    Wire.retrieveContext env outside userId message settings (Wire.sendUpdate outside) p in
  let run := Wire.start env outside userId message settings p in
  Wire.outcome run
    = inr (if Wire.readable (Wire.after session)
           then match Wire.outcome session with
                | inr _ => Wire.ClosedByHandler
                | inl thrown => Wire.ErroredWith thrown
                end
           else Wire.CancelledByConsumer) /\
  (forall thrown,
      Wire.outcome session = inl thrown ->
      thrown = Wire.AnError (Wire.closed_error outside) \/
      thrown = Wire.AnError
                 (TypeError (lit "Cannot read properties of null (reading 'message')")) \/
      thrown = Wire.AnError
                 (TypeError (lit "Cannot read properties of undefined (reading 'message')"))) /\
  stream (Wire.session (Wire.after run)) = stream (Wire.session (Wire.after session)) /\
  Wire.reads (Wire.after run) = Wire.reads (Wire.after session).
Proof.
  intros session run. subst run session.
  pose proof (retrieveContext_rejections p) as Hrejections. revert Hrejections.
  unfold Wire.start, Wire.try_catch, Wire.bind.
  destruct (Wire.retrieveContext env outside userId message settings
              (Wire.sendUpdate outside) p) as [[s1 taken] [thrown|[]]];
    intros Hrejections; unfold Wire.outcome, Wire.after in *; simpl in *.
  - destruct (Hrejections thrown eq_refl) as [-> | [-> | ->]];
      unfold Wire.bind, Wire.message_of, Wire.route_logger, Wire.controller_error,
        Wire.readable; simpl;
      (split; [reflexivity|]);
      (split; [|split; reflexivity]);
      intros thrown' [= <-]; auto.
  - unfold Wire.close, Wire.bind, Wire.message_of, Wire.route_logger,
      Wire.controller_error, Wire.readable; simpl.
    destruct taken as [[|n]|]; simpl; (split; [reflexivity|]);
      (split; [discriminate|split; reflexivity]).
Qed.

End WireFacts.

(** The collaborators of an environment reject with [Error] objects. *)
Lemma outside_of_speaks env closed : Wire.speaks (Wire.outside_of env closed).
Proof.
  unfold Wire.speaks, Wire.outside_of, Wire.own. simpl. split; [|split].
  - intros name w w' thrown.
    destruct (getVectorDbProvider env name w) as [w1 [error|provider]]; by intros [= _ <-].
  - intros name w w' supplier userId embedding topK w1 w2 thrown.
    destruct (getVectorDbProvider env name w) as [w3 [error|provider]]; [discriminate|].
    intros [= _ <-]. simpl.
    destruct (provider_query provider userId embedding topK w1) as [w4 [error|result]];
      by intros [= _ <-].
  - intros message passages settings w w' thrown.
    destruct (rerank env message passages settings w) as [w1 [error|text]];
      by intros [= _ <-].
Qed.

(** With a consumer that reads to the end and the collaborators of an
    environment, the session on the controller is the session above. *)
Lemma retrieveContext_agrees env closed userId message settings (s : Session) :
  Wire.retrieveContext env (Wire.outside_of env closed) userId message settings
    (Wire.sendUpdate (Wire.outside_of env closed)) {| Wire.session := s; Wire.reads := None |}
  = ({| Wire.session := after (retrieveContext env userId message settings s);
        Wire.reads := None |}, inr tt).
Proof.
  unfold Wire.retrieveContext, Wire.try_finally, Wire.try_catch, Wire.bind, Wire.call,
    Wire.own, Wire.sendUpdate, Wire.route_logger, Wire.message_of, Wire.ret,
    Wire.outside_of; simpl.
  unfold retrieveContext, try_finally, try_catch, bind, call, sendUpdate, route_logger,
    ret, after; simpl.
  destruct (embedMessage env userId message (world s)) as [w1 [e1|emb]]; simpl;
    [reflexivity|].
  destruct (getVectorDbProvider env (vectorizationProvider settings) w1)
    as [w2 [e2|provider]]; simpl; [reflexivity|].
  unfold Wire.own.
  destruct (provider_query provider userId emb (vectorDbTopK settings) w2)
    as [w3 [e3|qr]]; simpl; [reflexivity|].
  destruct (context qr) as [|passage passages]; simpl; [reflexivity|].
  destruct (rerank env message (passage :: passages) (knowledgebase settings) w3)
    as [w4 [e4|text]]; simpl; reflexivity.
Qed.

Lemma retrieveContext_done_on_a_read_stream_witness :
  exists p1 before,
    Wire.retrieveContext reranker_down_env
      (Wire.outside_of reranker_down_env sample_closed_error) (lit "u1") question
      sample_settings (Wire.sendUpdate (Wire.outside_of reranker_down_env sample_closed_error))
      (Wire.open_to (Some 5) boot)
    = (p1, inr tt) /\
    stream (Wire.session p1) = [] ++ before ++ [Done question] /\
    Forall (fun ev => status ev <> lit "Done") before.
Proof.
  apply (retrieveContext_done_on_a_read_stream reranker_down_env
           (Wire.outside_of reranker_down_env sample_closed_error) (lit "u1") question
           sample_settings (Wire.open_to (Some 5) boot)).
  - intros n [= <-]. apply le_n.
  - apply outside_of_speaks.
Defined.

(** C2, as stated, fails: when the consumer cancels the stream after two
    events, the write of the third throws, and so do the writes of the Error
    event and of the Done event: the session is rejected with the error of
    the stream, and Done is not written. *)
Lemma retrieveContext_consumer_gone :
  let run :=
    Wire.retrieveContext healthy_env (Wire.outside_of healthy_env sample_closed_error)
      (lit "u1") question sample_settings
      (Wire.sendUpdate (Wire.outside_of healthy_env sample_closed_error))
      (Wire.open_to (Some 2) boot) in
  Wire.outcome run = inl (Wire.AnError sample_closed_error) /\
  stream (Wire.session (Wire.after run)) = [Start question; Embedding_complete question] /\
  Done question ∉ stream (Wire.session (Wire.after run)).
Proof.
  assert (stream (Wire.session (Wire.after
            (Wire.retrieveContext healthy_env
               (Wire.outside_of healthy_env sample_closed_error)
               (lit "u1") question sample_settings
               (Wire.sendUpdate (Wire.outside_of healthy_env sample_closed_error))
               (Wire.open_to (Some 2) boot))))
          = [Start question; Embedding_complete question]) as Hstream
    by (vm_compute; reflexivity).
  split; [vm_compute; reflexivity|]. split; [exact Hstream|].
  intros Hin. rewrite Hstream in Hin.
  rewrite !elem_of_cons, elem_of_nil in Hin.
  destruct Hin as [Heq | [Heq | []]]; apply (f_equal status) in Heq;
    vm_compute in Heq; discriminate.
Qed.

Section WireSlip.

Variable env : Env.
Variable outside : Wire.Outside.
Variables userId message : JsString.
Variable settings : Settings.

(** X21.  When a collaborator outside the source files rejects with [null]
    or [undefined] on a stream that is read, the [catch] clause of
    [retrieveContext] throws on reading the message: the session is rejected
    with that TypeError, its stream holds the events of the stages completed
    before and then Done, with no Error event, and [start] puts the stream
    in error after Done. *)
Theorem retrieveContext_rejects_on_null (p : Wire.Piped) nothing :
  (forall n, Wire.reads p = Some n -> 5 <= n) ->
  Wire.nullish nothing = true ->
  let session :=
    Wire.retrieveContext env outside userId message settings (Wire.sendUpdate outside) p in
  let run := Wire.start env outside userId message settings p in
  let rejected events :=
    exists typeError,
      Wire.message_text env nothing = inl typeError /\
      err_name typeError = lit "TypeError" /\
      Wire.outcome session = inl (Wire.AnError typeError) /\
      stream (Wire.session (Wire.after session))
        = stream (Wire.session p) ++ events ++ [Done message] /\
      Wire.outcome run = inr (Wire.ErroredWith (Wire.AnError typeError)) in
  (forall w1 emb w2,
      embedMessage env userId message (world (Wire.session p)) = (w1, inr emb) ->
      Wire.the_getVectorDbProvider outside (vectorizationProvider settings) w1
        = (w2, inl nothing) ->
      rejected [Start message; Embedding_complete message]) /\
  (forall w1 emb w2 supplier w3,
      embedMessage env userId message (world (Wire.session p)) = (w1, inr emb) ->
      Wire.the_getVectorDbProvider outside (vectorizationProvider settings) w1
        = (w2, inr supplier) ->
      Wire.supplier_query supplier userId emb (vectorDbTopK settings) w2
        = (w3, inl nothing) ->
      rejected [Start message; Embedding_complete message]) /\
  (forall w1 emb w2 supplier w3 qr w4,
      embedMessage env userId message (world (Wire.session p)) = (w1, inr emb) ->
      Wire.the_getVectorDbProvider outside (vectorizationProvider settings) w1
        = (w2, inr supplier) ->
      Wire.supplier_query supplier userId emb (vectorDbTopK settings) w2 = (w3, inr qr) ->
      context qr <> [] ->
      Wire.the_rerank outside message (context qr) (knowledgebase settings) w3
        = (w4, inl nothing) ->
      rejected [Start message; Embedding_complete message; Query_complete]).
Proof.
  intros Hreads Hnothing session run rejected. subst rejected run session.
  destruct p as [s taken]. simpl in Hreads.
  assert (taken = None \/ exists n, taken = Some (5 + n)) as Htaken.
  { destruct taken as [n|]; [right|by left].
    exists (n - 5). f_equal. specialize (Hreads n eq_refl). lia. }
  assert (exists typeError,
             Wire.message_text env nothing = inl typeError /\
             err_name typeError = lit "TypeError") as (typeError & Htext & Hname).
  { destruct nothing as [error|[]]; try discriminate; simpl; eauto. }
  split; [|split].
  - intros w1 emb w2 He Hp. simpl in He. exists typeError.
    split; [exact Htext|]. split; [exact Hname|].
    unfold Wire.start, Wire.close, Wire.controller_error, Wire.readable,
      Wire.retrieveContext, Wire.try_finally, Wire.try_catch, Wire.bind, Wire.call,
      Wire.own, Wire.sendUpdate, Wire.route_logger, Wire.message_of, Wire.ret,
      Wire.after, Wire.outcome.
    destruct Htaken as [-> | [n ->]]; simpl; rewrite He; simpl; rewrite Hp; simpl;
      rewrite Htext; simpl; rewrite <- !app_assoc; done.
  - intros w1 emb w2 supplier w3 He Hp Hq. simpl in He. exists typeError.
    split; [exact Htext|]. split; [exact Hname|].
    unfold Wire.start, Wire.close, Wire.controller_error, Wire.readable,
      Wire.retrieveContext, Wire.try_finally, Wire.try_catch, Wire.bind, Wire.call,
      Wire.own, Wire.sendUpdate, Wire.route_logger, Wire.message_of, Wire.ret,
      Wire.after, Wire.outcome.
    destruct Htaken as [-> | [n ->]]; simpl; rewrite He; simpl; rewrite Hp; simpl;
      rewrite Hq; simpl; rewrite Htext; simpl; rewrite <- !app_assoc; done.
  - intros w1 emb w2 supplier w3 qr w4 He Hp Hq Hc Hr. simpl in He. exists typeError.
    split; [exact Htext|]. split; [exact Hname|].
    unfold Wire.start, Wire.close, Wire.controller_error, Wire.readable,
      Wire.retrieveContext, Wire.try_finally, Wire.try_catch, Wire.bind, Wire.call,
      Wire.own, Wire.sendUpdate, Wire.route_logger, Wire.message_of, Wire.ret,
      Wire.after, Wire.outcome.
    destruct (context qr) as [|passage passages] eqn:Hctx; [done|].
    destruct Htaken as [-> | [n ->]]; simpl; rewrite He; simpl; rewrite Hp; simpl;
      rewrite Hq; simpl; rewrite Hctx; simpl; rewrite Hr; simpl;
      rewrite Htext; simpl; rewrite <- !app_assoc; done.
Qed.

End WireSlip.

Lemma retrieveContext_rejects_on_null_witness :
  let session :=
    Wire.retrieveContext healthy_env silent_outside (lit "u1") question sample_settings
      (Wire.sendUpdate silent_outside) (Wire.open_to None boot) in
  exists typeError,
    Wire.outcome session = inl (Wire.AnError typeError) /\
    stream (Wire.session (Wire.after session))
      = [] ++ [Start question; Embedding_complete question] ++ [Done question].
Proof.
  intros session.
  assert (forall n, Wire.reads (Wire.open_to None boot) = Some n -> 5 <= n) as Hreads
    by discriminate.
  destruct (retrieveContext_rejects_on_null healthy_env silent_outside (lit "u1") question
              sample_settings (Wire.open_to None boot) (Wire.AValue JNull) Hreads eq_refl)
    as (Hfactory & _).
  destruct (Hfactory _ _ _ eq_refl eq_refl) as (typeError & _ & _ & Hout & Hstream & _).
  exists typeError. split; [exact Hout|exact Hstream].
Defined.

Lemma start_always_settles_witness :
  Wire.outcome
    (Wire.start healthy_env (Wire.outside_of healthy_env sample_closed_error) (lit "u1")
       question sample_settings (Wire.open_to (Some 2) boot))
  = inr Wire.CancelledByConsumer.
Proof.
  destruct (start_always_settles healthy_env
              (Wire.outside_of healthy_env sample_closed_error) (lit "u1") question
              sample_settings (Wire.open_to (Some 2) boot)) as (Hout & _).
  etransitivity; [exact Hout|]. vm_compute. reflexivity.
Defined.
